(** * The chat-completion bridge ([bridge_server.py])

  A shallow embedding of the streaming bridge: the request types, the
  generator [stream_agent_responses] with its two nested [try] blocks
  and its receive loop, and the HTTP handler [chat_completions].

  Python values that travel as JSON are values of [pyval]; a [dict] is a
  [gmap string pyval].  The generator is a function of the outside
  [world] (the agent endpoint and the clock) that returns the trace of
  what it did, the world it left and how it ended. *)

From Stdlib Require Import ZArith QArith String Ascii.
From Stdlib Require Import Floats.PrimFloat.
From stdpp Require Import base option list strings gmap.

(** ** Python values *)

(** What [json.loads] returns, and what [json.dumps] is given: [None],
  booleans, integers, floats, strings, lists and dicts with string
  keys.  A string is its UTF-8 text. *)
#[warnings="-register-all"]
Inductive pyval : Type :=
| PNone
| PBool (b : bool)
| PInt (z : Z)
| PFloat (f : float)
| PStr (s : string)
| PList (items : list pyval)
| PDict (d : gmap string pyval).

(** The exceptions the bridge can meet.  All of them derive from
  [Exception]; cancellation of the task by the HTTP layer (a
  [BaseException]) is outside this development. *)
Inductive exc : Type :=
| TimeoutError            (* asyncio.TimeoutError *)
| ConnectionClosed        (* websockets.exceptions.ConnectionClosed *)
| JSONDecodeError         (* json.loads on text that is not JSON *)
| KeyError (key : string) (* d[key] on a dict without that key *)
| TypeError               (* [in] or subscript on a value without it *)
| OtherError (name : string).

(** A computation that returns or raises, without touching the world. *)
Inductive result (A : Type) : Type :=
| Ok (a : A)
| Err (e : exc).
Arguments Ok {A} a.
Arguments Err {A} e.

#[global] Instance result_ret : MRet result := λ A a, Ok a.
#[global] Instance result_bind : MBind result := λ A B f r,
match r with
| Ok a => f a
| Err e => Err e
end.

(** [needle in hay] on two strings: substring search. *)
Fixpoint is_substring (needle hay : string) : bool :=
String.prefix needle hay ||
match hay with
| EmptyString => false
| String _ rest => is_substring needle rest
end.

(** [v == s] for a string literal [s]: only an equal string is equal. *)
Definition py_eq_str (v : pyval) (s : string) : bool :=
match v with
| PStr t => bool_decide (t = s)
| _ => false
end.

(** [key in container].  A dict tests its keys, a string searches a
  substring, a list compares its items; the other values are not
  iterable and raise [TypeError]. *)
Definition py_in (key : string) (container : pyval) : result bool :=
match container with
| PDict d => Ok (bool_decide (is_Some (d !! key)))
| PStr s => Ok (is_substring key s)
| PList items => Ok (existsb (λ v, py_eq_str v key) items)
| PNone | PBool _ | PInt _ | PFloat _ => Err TypeError
end.

(** [container[key]] for a string [key].  Only a dict can be indexed by a
  string: a missing key raises [KeyError], every other container
  raises [TypeError]. *)
Definition py_getitem (container : pyval) (key : string) : result pyval :=
match container with
| PDict d =>
    match d !! key with
    | Some v => Ok v
    | None => Err (KeyError key)
    end
| _ => Err TypeError
end.

(** [a and b] on two tests: [b] is evaluated only when [a] holds. *)
Definition py_and (a b : result bool) : result bool :=
x ← a; if x : bool then b else mret false.

(** [key in message and message[key] == tag], the test of lines 62
    and 64. *)
Definition has_tag (key tag : string) (message : pyval) : result bool :=
  py_and (py_in key message)
         (v ← py_getitem message key; mret (py_eq_str v tag)).

(** Truth value of a Python value, as [if v:] takes it. *)
Definition truthy (v : pyval) : bool :=
match v with
| PNone => false
| PBool b => b
| PInt z => negb (Z.eqb z 0)
| PFloat f => negb (PrimFloat.eqb f 0%float)
| PStr s => negb (bool_decide (s = EmptyString))
| PList items => negb (bool_decide (items = []))
| PDict d => negb (bool_decide (d = ∅))
end.

(** ** The request *)

Record ChatMessage : Type := {
role : string;
content : string;
}.

Record ChatCompletionRequest : Type := {
model : string;
messages : list ChatMessage;
stream : bool;
}.

(** Lines 33-37: the [for] loop with its [break]. *)
Fixpoint first_user_message (msgs : list ChatMessage) : string :=
match msgs with
| [] => EmptyString
| message :: rest =>
    if bool_decide (role message = "user") then content message
    else first_user_message rest
end.

(** ** The outside world *)

(** A text frame, taken up to what [json.loads] makes of it: the JSON
    text of a value, or text that is not JSON. *)
Inductive wire : Type :=
| Json (v : pyval)
| NotJson (raw : string).

(** Line 59. *)
Definition json_loads (message_str : wire) : result pyval :=
  match message_str with
  | Json v => Ok v
  | NotJson _ => Err JSONDecodeError
  end.

(** What one [websocket.recv()] ends with: a frame, or an exception
    ([ConnectionClosed] when the agent closes the channel). *)
Inductive inbound : Type :=
| Frame (message_str : wire)
| RecvRaises (e : exc).

(** The agent endpoint and the clock, as the generator meets them:
    whether [connect] and [send] raise, the events still to arrive,
    each with the seconds the receive attempt waits for it, and the
    readings of [int(time.time())], of which [ticks] were taken. *)
Record world : Type := {
  connect_error : option exc;
  send_error : option exc;
  pending : list (Q * inbound);
  clock : nat → Z;
  ticks : nat;
}.

Definition set_pending (l : list (Q * inbound)) (w : world) : world :=
  {| connect_error := connect_error w; send_error := send_error w;
     pending := l; clock := clock w; ticks := ticks w |}.

Definition tick (w : world) : world :=
  {| connect_error := connect_error w; send_error := send_error w;
     pending := pending w; clock := clock w; ticks := S (ticks w) |}.

(** The four lines the generator prints. *)
Inductive log_line : Type :=
| UserMessage (user_message : string)  (* line 39 *)
| TimeoutWaiting                       (* line 84 *)
| ClosedByServer                       (* line 87 *)
| ErrorConnecting (e : exc).           (* line 90 *)

(** What the generator does to the world, in order.  [Send v] sends
    [json.dumps(v)]; [Yield c] hands the HTTP layer the SSE event
    made of the prefix [data: ], [json.dumps(c)] and a blank line. *)
Inductive action : Type :=
| Log (line : log_line)
| Connect (uri : string)
| Send (payload : pyval)
| Close
| Yield (chunk : pyval).

(** ** The generator monad *)

(** How a computation ends.  [OutOfFuel] is the guard of the model's
    loop, not a Python outcome: [while_true_terminates] shows that the
    bridge never reaches it. *)
Inductive outcome (A : Type) : Type :=
| Ret (a : A)
| Raise (e : exc)
| OutOfFuel.
Arguments Ret {A} a.
Arguments Raise {A} e.
Arguments OutOfFuel {A}.

Definition gen (A : Type) : Type := world → list action * world * outcome A.

#[global] Instance gen_ret : MRet gen := λ A a w, ([], w, Ret a).

#[global] Instance gen_bind : MBind gen := λ A B f m w,
  match m w with
  | (tr, w', Ret a) => let '(tr', w'', o) := f a w' in (tr ++ tr', w'', o)
  | (tr, w', Raise e) => (tr, w', Raise e)
  | (tr, w', OutOfFuel) => (tr, w', OutOfFuel)
  end.

Definition lift {A} (r : result A) : gen A := λ w,
  match r with
  | Ok a => ([], w, Ret a)
  | Err e => ([], w, Raise e)
  end.

Definition raise {A} (e : exc) : gen A := λ w, ([], w, Raise e).

Definition emit (a : action) : gen unit := λ w, ([a], w, Ret tt).

(** [try: body / except ... as e: handler e].  A handler that does not
    catch [e] raises it again. *)
Definition try_except {A} (body : gen A) (handler : exc → gen A) : gen A := λ w,
  match body w with
  | (tr, w', Raise e) => let '(tr', w'', o) := handler e w' in (tr ++ tr', w'', o)
  | r => r
  end.

(** [cleanup] runs however [body] ends, and [body]'s ending stands. *)
Definition finally {A} (body : gen A) (cleanup : gen unit) : gen A := λ w,
  match body w with
  | (tr, w', OutOfFuel) => (tr, w', OutOfFuel)
  | (tr, w', o) =>
      match cleanup w' with
      | (tr', w'', Ret _) => (tr ++ tr', w'', o)
      | (tr', w'', Raise e) => (tr ++ tr', w'', Raise e)
      | (tr', w'', OutOfFuel) => (tr ++ tr', w'', OutOfFuel)
      end
  end.

(** ** The endpoint's operations *)

Definition print (line : log_line) : gen unit := emit (Log line).

Definition yield (chunk : pyval) : gen unit := emit (Yield chunk).

Definition connect (uri : string) : gen unit := λ w,
  ([Connect uri], w,
   match connect_error w with
   | Some e => Raise e
   | None => Ret tt
   end).

Definition send (payload : pyval) : gen unit := λ w,
  ([Send payload], w,
   match send_error w with
   | Some e => Raise e
   | None => Ret tt
   end).

(** [async with websockets.connect(uri) as websocket: body]: a failed
    connect raises before the body; once connected, the channel is
    closed however the body ends. *)
Definition async_with_connect {A} (uri : string) (body : gen A) : gen A :=
  connect uri;; finally body (emit Close).

(** [await asyncio.wait_for(websocket.recv(), timeout)]: the next
    event if it comes before the timeout, [TimeoutError] if it comes
    later or if nothing is left to come. *)
Definition wait_for_recv (timeout : Q) : gen wire := λ w,
  match pending w with
  | [] => ([], w, Raise TimeoutError)
  | (delay, event) :: rest =>
      if Qle_bool timeout delay then ([], w, Raise TimeoutError)
      else match event with
           | Frame message_str => ([], set_pending rest w, Ret message_str)
           | RecvRaises e => ([], set_pending rest w, Raise e)
           end
  end.

(** [int(time.time())]. *)
Definition time_time : gen Z := λ w, ([], tick w, Ret (clock w (ticks w))).

(** ** The receive loop *)

Inductive flow : Type := Continue | Break.

Fixpoint loop (fuel : nat) (body : gen flow) : gen unit :=
  match fuel with
  | O => λ w, ([], w, OutOfFuel)
  | S n => f ← body; match f with
                      | Break => mret tt
                      | Continue => loop n body
                      end
  end.

(** [while True: body].  An iteration that goes on has taken an event
    off [pending], so one more round than there are events is enough
    (lemma [while_true_terminates]). *)
Definition while_true (body : gen flow) : gen unit := λ w,
  loop (S (length (pending w))) body w.

(** ** The chunks and the envelope *)

(** Lines 68-80 and 93-105: the two chunks. *)
Definition chunk_of (now : Z) (request : ChatCompletionRequest)
    (delta : gmap string pyval) (finish_reason : pyval) : pyval :=
  PDict {[ "id" := PStr "chatcmpl-123";
           "object" := PStr "chat.completion.chunk";
           "created" := PInt now;
           "model" := PStr (model request);
           "choices" := PList [ PDict {[ "index" := PInt 0;
                                         "delta" := PDict delta;
                                         "finish_reason" := finish_reason ]} ] ]}.

Definition content_frame (now : Z) (request : ChatCompletionRequest)
    (content_chunk : pyval) : pyval :=
  chunk_of now request {[ "content" := content_chunk ]} PNone.

Definition done_chunk (now : Z) (request : ChatCompletionRequest) : pyval :=
  chunk_of now request ∅ (PStr "stop").

(** Lines 46-52. *)
Definition message_action (user_message : string) : pyval :=
  PDict {[ "action" := PStr "MessageAction";
           "args" := PDict {[ "content" := PStr user_message;
                              "source" := PStr "user" ]} ]}.

(** Line 54: what is sent. *)
Definition envelope (user_message : string) : pyval :=
  PDict {[ "action" := PStr "oh_user_action";
           "data" := message_action user_message ]}.

Definition uri : string :=
  "ws://localhost:3000/ws?conversation_id=" +:+ "test-conversation".

(** ** Reading a chunk *)

(** The single entry of a chunk's [choices]. *)
Definition choice_of (chunk : pyval) : option (gmap string pyval) :=
  match chunk with
  | PDict c =>
      match c !! "choices" with
      | Some (PList [PDict ch]) => Some ch
      | _ => None
      end
  | _ => None
  end.

Definition delta_of (chunk : pyval) : option (gmap string pyval) :=
  ch ← choice_of chunk;
  match ch !! "delta" with
  | Some (PDict d) => Some d
  | _ => None
  end.

Definition finish_reason_of (chunk : pyval) : option pyval :=
  ch ← choice_of chunk; ch !! "finish_reason".

(** A terminal frame: an empty [delta] and [finish_reason] "stop". *)
Definition is_terminal (chunk : pyval) : bool :=
  match delta_of chunk, finish_reason_of chunk with
  | Some d, Some (PStr s) => bool_decide (d = ∅) && bool_decide (s = "stop")
  | _, _ => false
  end.

(** [delta.content] of a frame, when it has one. *)
Definition content_of (chunk : pyval) : option pyval :=
  d ← delta_of chunk; d !! "content".

(** The frames of a trace, in the order they were yielded. *)
Definition yields (tr : list action) : list pyval :=
  omap (λ a, match a with Yield c => Some c | _ => None end) tr.

(** What the client gets and what happened to the world meanwhile.
    The framework, not the bridge, does this part: it answers 200
    (neither return value sets a status), encodes a dict as JSON, and
    drains the generator of a [StreamingResponse] into the body. *)
Inductive http_body : Type :=
| EventStream (events : list pyval)
| JSONBody (v : pyval).

Record exchange : Type := {
  status_code : Z;
  content_type : string;
  body : http_body;
  effects : list action;
  ending : outcome unit;
}.

(** What the handler returns: a [StreamingResponse] around a generator
    that has not run yet, or a dict for the framework to encode. *)
Inductive response : Type :=
| StreamingResponse (content : gen unit) (media_type : string)
| JSONDict (body : gmap string pyval).

(** ** Translation of one inbound message *)

Definition LF : string := String "010"%char EmptyString.

Section Bridge.

(** [str(v)] for a value that is not a string, which the f-string of
    line 65 applies to the command.  It is Python's, not the
    bridge's: everything below holds for any such function. *)
Variable py_str : pyval → string.

(** [f"{v}"]: a string is inserted as it is. *)
Definition py_format (v : pyval) : string :=
  match v with
  | PStr s => s
  | _ => py_str v
  end.

(** Lines 61-65: the value of [content_chunk] for a decoded message. *)
Definition content_chunk_of (message : pyval) : result pyval :=
  is_think ← has_tag "observation" "AgentThinkObservation" message;
  if is_think : bool then py_getitem message "content"
  else
    is_cmd ← has_tag "action" "CmdRunAction" message;
    if is_cmd : bool then
      args ← py_getitem message "args";
      command ← py_getitem args "command";
      mret (PStr (LF +:+ LF +:+ "Running command:" +:+ LF +:+ "```bash" +:+ LF
                  +:+ py_format command +:+ LF +:+ "```" +:+ LF +:+ LF))
    else mret (PStr EmptyString).

(** Decoding and translation of one frame, lines 59-65 together. *)
Definition fragment_of (message_str : wire) : result pyval :=
  message ← json_loads message_str; content_chunk_of message.

(** ** [stream_agent_responses] *)

(** Lines 57-88: one round of the loop. *)
Definition receive_one (request : ChatCompletionRequest) : gen flow :=
  try_except
    (message_str ← wait_for_recv 20;
     message ← lift (json_loads message_str);
     content_chunk ← lift (content_chunk_of message);
     (if truthy content_chunk then
        now ← time_time;
        yield (content_frame now request content_chunk)
      else mret tt);;
     mret Continue)
    (λ e, match e with
          | TimeoutError => print TimeoutWaiting;; mret Break
          | ConnectionClosed => print ClosedByServer;; mret Break
          | _ => raise e
          end).

(** Lines 32-106. *)
Definition stream_agent_responses (request : ChatCompletionRequest) : gen unit :=
  let user_message := first_user_message (messages request) in
  print (UserMessage user_message);;
  try_except
    (async_with_connect uri
       (send (envelope user_message);;
        while_true (receive_one request)))
    (λ e, print (ErrorConnecting e));;
  now ← time_time;
  yield (done_chunk now request).

(** ** The HTTP handler *)

(** Lines 109-116. *)
Definition chat_completions (request : ChatCompletionRequest) : response :=
  if stream request then
    StreamingResponse (stream_agent_responses request) "text/event-stream"
  else
    JSONDict {[ "error" := PStr "Non-streaming not implemented yet" ]}.

Definition serve (request : ChatCompletionRequest) (w : world) : exchange :=
  match chat_completions request with
  | StreamingResponse content media_type =>
      let '(tr, _, o) := content w in
      {| status_code := 200; content_type := media_type;
         body := EventStream (yields tr); effects := tr; ending := o |}
  | JSONDict d =>
      {| status_code := 200; content_type := "application/json";
         body := JSONBody (PDict d); effects := []; ending := Ret tt |}
  end.

(** ** Facts about chunks and translation *)

Lemma delta_of_content_frame now request v :
  delta_of (content_frame now request v) = Some {[ "content" := v ]}.
Proof. reflexivity. Qed.

Lemma finish_reason_of_content_frame now request v :
  finish_reason_of (content_frame now request v) = Some PNone.
Proof. reflexivity. Qed.

Lemma content_of_content_frame now request v :
  content_of (content_frame now request v) = Some v.
Proof. reflexivity. Qed.

Lemma is_terminal_content_frame now request v :
  is_terminal (content_frame now request v) = false.
Proof. reflexivity. Qed.

Lemma is_terminal_done_chunk now request :
  is_terminal (done_chunk now request) = true.
Proof. reflexivity. Qed.

Lemma delta_of_done_chunk now request :
  delta_of (done_chunk now request) = Some ∅.
Proof. reflexivity. Qed.

Lemma finish_reason_of_done_chunk now request :
  finish_reason_of (done_chunk now request) = Some (PStr "stop").
Proof. reflexivity. Qed.

(** The exceptions of the two handlers of line 83 and 86. *)
Definition caught_inside (e : exc) : bool :=
  match e with
  | TimeoutError | ConnectionClosed => true
  | _ => false
  end.

Lemma py_getitem_err c k e :
  py_getitem c k = Err e → caught_inside e = false.
Proof.
  destruct c; simpl; try (by intros [= <-]).
  destruct (d !! k); by intros [= <-].
Qed.

Lemma py_in_err k c e : py_in k c = Err e → caught_inside e = false.
Proof. destruct c; simpl; by intros [= <-]. Qed.

Lemma has_tag_err k tag message e :
  has_tag k tag message = Err e → caught_inside e = false.
Proof.
  unfold has_tag, py_and. destruct (py_in k message) as [[]|e'] eqn:Hin; simpl.
  - destruct (py_getitem message k) eqn:Hget; simpl; [done|].
    intros [= <-]. by eapply py_getitem_err.
  - done.
  - intros [= <-]. by eapply py_in_err.
Qed.

(** Translation raises neither of the exceptions the loop catches. *)
Lemma content_chunk_of_err message e :
  content_chunk_of message = Err e → caught_inside e = false.
Proof.
  unfold content_chunk_of.
  destruct (has_tag "observation" _ message) as [[]|e1] eqn:H1; simpl.
  - apply py_getitem_err.
  - destruct (has_tag "action" _ message) as [[]|e2] eqn:H2; simpl.
    + destruct (py_getitem message "args") as [args|] eqn:Ha; simpl.
      * destruct (py_getitem args "command") eqn:Hc; simpl; [done|].
        intros [= <-]. by eapply py_getitem_err.
      * intros [= <-]. by eapply py_getitem_err.
    + done.
    + intros [= <-]. by eapply has_tag_err.
  - intros [= <-]. by eapply has_tag_err.
Qed.

Lemma fragment_of_err message_str e :
  fragment_of message_str = Err e → caught_inside e = false.
Proof.
  destruct message_str; simpl.
  - apply content_chunk_of_err.
  - by intros [= <-].
Qed.

(** ** One round of the loop *)

(** What [receive_one] does, by cases on the next event. *)
Definition round (request : ChatCompletionRequest) (w : world)
    : list action * world * outcome flow :=
  match pending w with
  | [] => ([Log TimeoutWaiting], w, Ret Break)
  | (delay, event) :: rest =>
      if Qle_bool 20 delay then ([Log TimeoutWaiting], w, Ret Break)
      else match event with
           | RecvRaises TimeoutError =>
               ([Log TimeoutWaiting], set_pending rest w, Ret Break)
           | RecvRaises ConnectionClosed =>
               ([Log ClosedByServer], set_pending rest w, Ret Break)
           | RecvRaises e => ([], set_pending rest w, Raise e)
           | Frame message_str =>
               match fragment_of message_str with
               | Err e => ([], set_pending rest w, Raise e)
               | Ok v =>
                   if truthy v then
                     ([Yield (content_frame (clock w (ticks w)) request v)],
                      tick (set_pending rest w), Ret Continue)
                   else ([], set_pending rest w, Ret Continue)
               end
           end
  end.

Lemma receive_one_round request w : receive_one request w = round request w.
Proof.
  unfold receive_one, round, try_except, mbind, gen_bind, wait_for_recv.
  destruct (pending w) as [|[delay event] rest]; [done|].
  destruct (Qle_bool 20 delay); [done|].
  destruct event as [message_str|e]; [|by destruct e].
  unfold fragment_of. destruct message_str as [message|raw]; simpl; [|done].
  destruct (content_chunk_of message) as [v|e] eqn:Hv; simpl.
  - by destruct (truthy v).
  - apply content_chunk_of_err in Hv. by destruct e.
Qed.

(** ** The loop as a relation *)

(** [receives request w tr w' o]: started in [w], the loop does [tr],
    leaves [w'] and ends with [o]; it ends by [break] ([Ret tt]) or by
    an exception that neither handler of the loop catches. *)
Inductive receives (request : ChatCompletionRequest)
    : world → list action → world → outcome unit → Prop :=
| receives_break w tr w' :
    round request w = (tr, w', Ret Break) →
    receives request w tr w' (Ret tt)
| receives_raise w tr w' e :
    round request w = (tr, w', Raise e) →
    receives request w tr w' (Raise e)
| receives_continue w tr w' tr' w'' o :
    round request w = (tr, w', Ret Continue) →
    receives request w' tr' w'' o →
    receives request w (tr ++ tr') w'' o.

Lemma round_continue_consumes request w tr w' :
  round request w = (tr, w', Ret Continue) →
  S (length (pending w')) = length (pending w).
Proof.
  unfold round. destruct (pending w) as [|[delay event] rest]; [done|].
  destruct (Qle_bool 20 delay); [done|].
  destruct event as [message_str|e].
  - destruct (fragment_of message_str) as [v|]; [|done].
    destruct (truthy v); by intros [= <- <-].
  - by destruct e.
Qed.

Lemma round_not_out_of_fuel request w tr w' :
  round request w ≠ (tr, w', OutOfFuel).
Proof.
  unfold round. destruct (pending w) as [|[delay event] rest]; [done|].
  destruct (Qle_bool 20 delay); [done|].
  destruct event as [message_str|e].
  - destruct (fragment_of message_str) as [v|]; [|done]. by destruct (truthy v).
  - by destruct e.
Qed.

Lemma loop_receives request fuel w :
  length (pending w) < fuel →
  ∃ tr w' o, loop fuel (receive_one request) w = (tr, w', o)
             ∧ receives request w tr w' o.
Proof.
  revert w. induction fuel as [|fuel IH]; intros w Hlt; [lia|].
  simpl. unfold mbind, gen_bind. rewrite receive_one_round.
  destruct (round request w) as [[tr w1] [[]|e|]] eqn:Hround.
  - destruct (IH w1) as (tr' & w2 & o & Hloop & Hrec).
    { apply round_continue_consumes in Hround. lia. }
    rewrite Hloop. eexists _, _, _. split; [done|]. by eapply receives_continue.
  - simpl. rewrite app_nil_r. eexists _, _, _. split; [done|]. by apply receives_break.
  - eexists _, _, _. split; [done|]. by apply receives_raise.
  - by apply round_not_out_of_fuel in Hround.
Qed.

(** The loop of the bridge always ends, and never on the guard. *)
Lemma while_true_terminates request w :
  ∃ tr w' o, while_true (receive_one request) w = (tr, w', o)
             ∧ receives request w tr w' o.
Proof. apply loop_receives. lia. Qed.

Lemma receives_not_out_of_fuel request w tr w' o :
  receives request w tr w' o → o ≠ OutOfFuel.
Proof. induction 1; done. Qed.

(** ** The generator as a whole *)

(** What follows the loop: the channel is closed, an exception that
    left the loop is logged by the outer handler, and the final chunk
    is yielded. *)
Definition epilogue (request : ChatCompletionRequest) (w : world)
    (o : outcome unit) : list action :=
  Close :: match o with
           | Raise e => [Log (ErrorConnecting e)]
           | _ => []
           end
        ++ [Yield (done_chunk (clock w (ticks w)) request)].

Lemma stream_agent_responses_run request w :
  let user_message := first_user_message (messages request) in
  let final := Yield (done_chunk (clock w (ticks w)) request) in
  match connect_error w, send_error w with
  | Some e, _ =>
      stream_agent_responses request w =
      ([Log (UserMessage user_message); Connect uri;
        Log (ErrorConnecting e); final], tick w, Ret tt)
  | None, Some e =>
      stream_agent_responses request w =
      ([Log (UserMessage user_message); Connect uri;
        Send (envelope user_message); Close;
        Log (ErrorConnecting e); final], tick w, Ret tt)
  | None, None =>
      ∃ tr w' o,
        receives request w tr w' o ∧
        stream_agent_responses request w =
        ([Log (UserMessage user_message); Connect uri;
          Send (envelope user_message)] ++ tr ++ epilogue request w' o,
         tick w', Ret tt)
  end.
Proof.
  intros user_message final.
  unfold stream_agent_responses, async_with_connect, try_except, finally,
    print, yield, emit, connect, send, time_time, mbind, gen_bind.
  fold user_message.
  destruct (connect_error w) as [e|]; [done|].
  destruct (send_error w) as [e|]; [done|].
  destruct (while_true_terminates request w) as (tr & w' & o & Hloop & Hrec).
  exists tr, w', o. split; [done|]. rewrite Hloop.
  pose proof (receives_not_out_of_fuel _ _ _ _ _ Hrec) as Hfuel.
  destruct o as [[]|e|]; [| |done]; simpl; unfold epilogue;
    by rewrite ?app_nil_r, <- ?app_assoc.
Qed.

(** ** What the loop yields *)

Lemma yields_app tr tr' : yields (tr ++ tr') = yields tr ++ yields tr'.
Proof. apply omap_app. Qed.

(** The loop is a function: one run from each world. *)
Lemma receives_inv request w tr w' o :
  receives request w tr w' o →
  match round request w with
  | (tr1, w1, Ret Break) => tr = tr1 ∧ w' = w1 ∧ o = Ret tt
  | (tr1, w1, Ret Continue) =>
      ∃ tr2, tr = tr1 ++ tr2 ∧ receives request w1 tr2 w' o
  | (tr1, w1, Raise e) => tr = tr1 ∧ w' = w1 ∧ o = Raise e
  | (_, _, OutOfFuel) => False
  end.
Proof.
  destruct 1 as [w tr w' Hr|w tr w' e Hr|w tr w' tr' w'' o Hr Hrest];
    rewrite Hr; eauto.
Qed.

(** A round only logs and yields; a frame it yields carries the
    truthy translation of the frame at the head of [pending]. *)
Lemma round_actions request w tr w' o :
  round request w = (tr, w', o) →
  tr = [] ∨ (∃ line, tr = [Log line]) ∨
  ∃ delay message_str rest v,
    pending w = (delay, Frame message_str) :: rest
    ∧ fragment_of message_str = Ok v ∧ truthy v = true
    ∧ tr = [Yield (content_frame (clock w (ticks w)) request v)].
Proof.
  unfold round. destruct (pending w) as [|[delay event] rest] eqn:Hp.
  { intros [= <- <- <-]. eauto. }
  destruct (Qle_bool 20 delay). { intros [= <- <- <-]. eauto. }
  destruct event as [message_str|e].
  - destruct (fragment_of message_str) as [v|e] eqn:Hv.
    + destruct (truthy v) eqn:Ht; intros [= <- <- <-]; [|by left].
      right; right. by exists delay, message_str, rest, v.
    + intros [= <- <- <-]. by left.
  - destruct e; intros [= <- <- <-]; eauto.
Qed.

(** The events still pending after a round were pending before it. *)
Lemma round_pending request w tr w' o :
  round request w = (tr, w', o) → pending w' ⊆ pending w.
Proof.
  unfold round. destruct (pending w) as [|[delay event] rest] eqn:Hp.
  { intros [= <- <- <-]. by rewrite Hp. }
  destruct (Qle_bool 20 delay). { intros [= <- <- <-]. by rewrite Hp. }
  assert (rest ⊆ (delay, event) :: rest) by set_solver.
  destruct event as [message_str|e].
  - destruct (fragment_of message_str) as [v|e].
    + by destruct (truthy v); intros [= <- <- <-].
    + by intros [= <- <- <-].
  - by destruct e; intros [= <- <- <-].
Qed.

(** A frame of the loop: the content chunk [v] is truthy and is the
    translation of a frame that was pending. *)
Definition loop_frame (request : ChatCompletionRequest) (w : world)
    (chunk : pyval) : Prop :=
  ∃ now delay message_str v,
    chunk = content_frame now request v
    ∧ (delay, Frame message_str) ∈ pending w
    ∧ fragment_of message_str = Ok v
    ∧ truthy v = true.

Lemma receives_yields request w tr w' o :
  receives request w tr w' o → Forall (loop_frame request w) (yields tr).
Proof.
  induction 1 as [w tr w' Hr|w tr w' e Hr|w tr w' tr' w'' o Hr Hrest IH].
  1,2: apply round_actions in Hr
    as [->|[[line ->]|(delay & m & rest & v & Hp & Hv & Ht & ->)]];
    simpl; repeat constructor;
    exists (clock w (ticks w)), delay, m, v; rewrite Hp; set_solver.
  rewrite yields_app. apply Forall_app. split.
  - apply round_actions in Hr
      as [->|[[line ->]|(delay & m & rest & v & Hp & Hv & Ht & ->)]];
      simpl; repeat constructor.
    exists (clock w (ticks w)), delay, m, v. rewrite Hp. set_solver.
  - apply round_pending in Hr. eapply Forall_impl; [exact IH|].
    intros chunk (now & delay & m & v & -> & Hin & Hv & Ht).
    exists now, delay, m, v. set_solver.
Qed.

(** The loop never connects, sends or closes. *)
Definition quiet (a : action) : Prop :=
  match a with
  | Log _ | Yield _ => True
  | _ => False
  end.

Lemma receives_quiet request w tr w' o :
  receives request w tr w' o → Forall quiet tr.
Proof.
  induction 1 as [w tr w' Hr|w tr w' e Hr|w tr w' tr' w'' o Hr Hrest IH].
  1,2: by apply round_actions in Hr
    as [->|[[line ->]|(delay & m & rest & v & Hp & Hv & Ht & ->)]];
    repeat constructor.
  apply Forall_app. split; [|done].
  by apply round_actions in Hr
    as [->|[[line ->]|(delay & m & rest & v & Hp & Hv & Ht & ->)]];
    repeat constructor.
Qed.

(** ** Events the loop goes past *)

(** The event lets the loop go on: a frame that arrives in time,
    decodes and translates. *)
Definition goes_on (a : Q * inbound) : bool :=
  negb (Qle_bool 20 a.1) &&
  match a.2 with
  | Frame message_str =>
      match fragment_of message_str with
      | Ok _ => true
      | Err _ => false
      end
  | RecvRaises _ => false
  end.

(** The content chunk the loop yields for the event, if it yields. *)
Definition kept (a : Q * inbound) : option pyval :=
  match a.2 with
  | Frame message_str =>
      match fragment_of message_str with
      | Ok v => if truthy v then Some v else None
      | Err _ => None
      end
  | RecvRaises _ => None
  end.

(** The frames of the content chunks [vs], the first one stamped with
    the [k]-th reading of the clock. *)
Fixpoint stamped (request : ChatCompletionRequest) (clock : nat → Z)
    (k : nat) (vs : list pyval) : list pyval :=
  match vs with
  | [] => []
  | v :: vs => content_frame (clock k) request v :: stamped request clock (S k) vs
  end.

(** The world after [n] more clock readings, with [l] left to come. *)
Definition after (l : list (Q * inbound)) (n : nat) (w : world) : world :=
  {| connect_error := connect_error w; send_error := send_error w;
     pending := l; clock := clock w; ticks := n + ticks w |}.

Lemma after_tick l n w : after l n (tick w) = after l (S n) w.
Proof. unfold after, tick. simpl. by rewrite Nat.add_succ_r. Qed.

Lemma after_set_pending l l' n w : after l n (set_pending l' w) = after l n w.
Proof. done. Qed.

Lemma receives_through request pre :
  ∀ w l tr w' o,
    Forall (λ a, goes_on a = true) pre →
    pending w = pre ++ l →
    receives request w tr w' o →
    ∃ tr2,
      tr = (Yield <$> stamped request (clock w) (ticks w) (omap kept pre)) ++ tr2
      ∧ receives request (after l (length (omap kept pre)) w) tr2 w' o.
Proof.
  induction pre as [|[delay event] pre IH]; intros w l tr w' o Hpre Hp Hrec.
  { exists tr. split; [done|]. destruct w. by simpl in *; subst. }
  inversion_clear Hpre as [|? ? Ha Hpre'].
  unfold goes_on in Ha. simpl in Ha.
  apply andb_true_iff in Ha as [Hd Hm]. apply negb_true_iff in Hd.
  destruct event as [message_str|e]; [|done].
  destruct (fragment_of message_str) as [v|e] eqn:Hv; [|done].
  apply receives_inv in Hrec. unfold round in Hrec.
  rewrite Hp in Hrec. simpl in Hrec. rewrite Hd, Hv in Hrec.
  unfold kept at 1 2. simpl. rewrite Hv.
  destruct (truthy v) eqn:Ht; destruct Hrec as (tr2 & -> & Hrec).
  - apply (IH _ l) in Hrec as (tr3 & -> & Hrec); [|done..].
    exists tr3. simpl. split; [done|].
    by rewrite after_tick, after_set_pending in Hrec.
  - apply (IH _ l) in Hrec as (tr3 & -> & Hrec); [|done..].
    exists tr3. split; [done|]. by rewrite after_set_pending in Hrec.
Qed.

(** The run from a world whose next event does not go on, by cases. *)
Lemma receives_stop request w tr w' o :
  receives request w tr w' o →
  match pending w with
  | [] => tr = [Log TimeoutWaiting] ∧ w' = w ∧ o = Ret tt
  | (delay, event) :: rest =>
      if Qle_bool 20 delay then tr = [Log TimeoutWaiting] ∧ w' = w ∧ o = Ret tt
      else match event with
           | RecvRaises TimeoutError =>
               tr = [Log TimeoutWaiting] ∧ w' = set_pending rest w ∧ o = Ret tt
           | RecvRaises ConnectionClosed =>
               tr = [Log ClosedByServer] ∧ w' = set_pending rest w ∧ o = Ret tt
           | RecvRaises e => tr = [] ∧ w' = set_pending rest w ∧ o = Raise e
           | Frame message_str =>
               match fragment_of message_str with
               | Err e => tr = [] ∧ w' = set_pending rest w ∧ o = Raise e
               | Ok _ => True
               end
           end
  end.
Proof.
  intros Hrec. apply receives_inv in Hrec. unfold round in Hrec.
  destruct (pending w) as [|[delay event] rest]; [done|].
  destruct (Qle_bool 20 delay); [done|].
  destruct event as [message_str|e].
  - by destruct (fragment_of message_str).
  - by destruct e.
Qed.

(** ** Translation of a JSON object *)

(** The value under [key] is the string [tag]. *)
Definition tag_is (key tag : string) (d : gmap string pyval) : bool :=
  match d !! key with
  | Some v => py_eq_str v tag
  | None => false
  end.

Lemma has_tag_dict key tag d : has_tag key tag (PDict d) = Ok (tag_is key tag d).
Proof. unfold has_tag, tag_is, py_and. simpl. by destruct (d !! key). Qed.

Lemma tag_is_true key tag d :
  tag_is key tag d = true ↔ d !! key = Some (PStr tag).
Proof.
  unfold tag_is. destruct (d !! key) as [v|]; [|done].
  destruct v; simpl; try done.
  rewrite bool_decide_eq_true. naive_solver.
Qed.

Lemma tag_is_false key tag d :
  tag_is key tag d = false ↔ d !! key ≠ Some (PStr tag).
Proof. rewrite <- tag_is_true. by destruct (tag_is key tag d). Qed.

(** Only a dict can carry a tag. *)
Lemma has_tag_true key tag message :
  has_tag key tag message = Ok true →
  ∃ d, message = PDict d ∧ d !! key = Some (PStr tag).
Proof.
  destruct message as [| | | | |items|d]; try done.
  - unfold has_tag, py_and. simpl. by destruct (is_substring key s).
  - unfold has_tag, py_and. simpl. by destruct (existsb _ items).
  - rewrite has_tag_dict. intros [= Ht]. apply tag_is_true in Ht. eauto.
Qed.

Lemma content_chunk_of_dict d :
  content_chunk_of (PDict d) =
  if tag_is "observation" "AgentThinkObservation" d then
    py_getitem (PDict d) "content"
  else if tag_is "action" "CmdRunAction" d then
    args ← py_getitem (PDict d) "args";
    command ← py_getitem args "command";
    mret (PStr (LF +:+ LF +:+ "Running command:" +:+ LF +:+ "```bash" +:+ LF
                +:+ py_format command +:+ LF +:+ "```" +:+ LF +:+ LF))
  else Ok (PStr EmptyString).
Proof.
  unfold content_chunk_of. rewrite !has_tag_dict. simpl.
  destruct (tag_is "observation" _ d); [done|]. simpl.
  by destruct (tag_is "action" _ d).
Qed.

(** A content chunk is a string, unless it is the [content] of a
    message tagged [AgentThinkObservation]. *)
Lemma content_chunk_of_ok message v :
  content_chunk_of message = Ok v →
  (∃ s, v = PStr s) ∨
  ∃ d, message = PDict d
       ∧ d !! "observation" = Some (PStr "AgentThinkObservation")
       ∧ d !! "content" = Some v.
Proof.
  unfold content_chunk_of.
  destruct (has_tag "observation" _ message) as [[]|] eqn:Hobs; simpl; [| |done].
  - apply has_tag_true in Hobs as (d & -> & Hobs). simpl.
    destruct (d !! "content") as [c|] eqn:Hc; [|done].
    intros [= <-]. right. eauto.
  - destruct (has_tag "action" _ message) as [[]|]; simpl; [| |done].
    + destruct (py_getitem message "args") as [args|]; simpl; [|done].
      destruct (py_getitem args "command"); simpl; [|done].
      intros [= <-]. eauto.
    + intros [= <-]. eauto.
Qed.

Lemma in_time delay : (delay < 20)%Q → Qle_bool 20 delay = false.
Proof.
  intros Hlt. apply not_true_is_false. intros Hle.
  apply Qle_bool_iff in Hle. by apply Qlt_not_le in Hlt.
Qed.

(** One round on a frame in time whose translation is known. *)
Lemma receive_one_frame request w delay message_str rest v :
  pending w = (delay, Frame message_str) :: rest →
  (delay < 20)%Q →
  fragment_of message_str = Ok v →
  receive_one request w =
  if truthy v then
    ([Yield (content_frame (clock w (ticks w)) request v)],
     tick (set_pending rest w), Ret Continue)
  else ([], set_pending rest w, Ret Continue).
Proof.
  intros Hp Hd Hv. rewrite receive_one_round. unfold round.
  by rewrite Hp, (in_time _ Hd), Hv.
Qed.

(** ** The two translations (claims C4, C5 and C10) *)

(** C4. A message tagged [CmdRunAction] (and not also tagged as an
    [AgentThinkObservation] observation, see C10) whose [args.command]
    is the text [c] is translated to the text made of two newlines,
    the line "Running command:", the line that opens a bash fence,
    [c] on its own line, the closing fence and two newlines; the round
    that receives it yields one frame whose [delta.content] is exactly
    that text, and goes on.  For the command [ls -la] the text is the
    literal of the last line. *)
Theorem cmd_run_fragment request w d args c delay rest :
  d !! "action" = Some (PStr "CmdRunAction") →
  d !! "observation" ≠ Some (PStr "AgentThinkObservation") →
  d !! "args" = Some (PDict args) →
  args !! "command" = Some (PStr c) →
  pending w = (delay, Frame (Json (PDict d))) :: rest →
  (delay < 20)%Q →
  let fragment := PStr ("

Running command:
```bash
" +:+ c +:+ "
```

") in
  content_chunk_of (PDict d) = Ok fragment
  ∧ receive_one request w =
    ([Yield (content_frame (clock w (ticks w)) request fragment)],
     tick (set_pending rest w), Ret Continue)
  ∧ content_of (content_frame (clock w (ticks w)) request fragment)
    = Some fragment
  ∧ (c = "ls -la" → fragment = PStr "

Running command:
```bash
ls -la
```

").
Proof.
  intros Hact Hobs Hargs Hcmd Hp Hd fragment.
  assert (content_chunk_of (PDict d) = Ok fragment) as Hv.
  { rewrite content_chunk_of_dict.
    apply tag_is_true in Hact. apply tag_is_false in Hobs.
    rewrite Hobs, Hact. simpl. rewrite Hargs. simpl. by rewrite Hcmd. }
  split; [done|]. split; [|split; [done|by intros ->]].
  by rewrite (receive_one_frame request w delay (Json (PDict d)) rest fragment).
Qed.

(** C5, amended.  A message tagged [AgentThinkObservation] whose
    [content] is the string [s] is translated to [s] itself.  When [s]
    is not empty, the round that receives it yields one frame whose
    [delta.content] is [s], unchanged; when [s] is the empty string the
    round yields nothing.  Either way the loop goes on. *)
Theorem think_content_verbatim request w d s delay rest :
  d !! "observation" = Some (PStr "AgentThinkObservation") →
  d !! "content" = Some (PStr s) →
  pending w = (delay, Frame (Json (PDict d))) :: rest →
  (delay < 20)%Q →
  content_chunk_of (PDict d) = Ok (PStr s)
  ∧ (s ≠ EmptyString →
     receive_one request w =
     ([Yield (content_frame (clock w (ticks w)) request (PStr s))],
      tick (set_pending rest w), Ret Continue)
     ∧ content_of (content_frame (clock w (ticks w)) request (PStr s))
       = Some (PStr s))
  ∧ (s = EmptyString →
     receive_one request w = ([], set_pending rest w, Ret Continue)).
Proof.
  intros Hobs Hc Hp Hd.
  assert (content_chunk_of (PDict d) = Ok (PStr s)) as Hv.
  { rewrite content_chunk_of_dict. apply tag_is_true in Hobs.
    rewrite Hobs. simpl. by rewrite Hc. }
  split; [done|].
  rewrite (receive_one_frame request w delay (Json (PDict d)) rest (PStr s))
    by done.
  simpl. split; intros Hs.
  - by rewrite bool_decide_eq_false_2.
  - by rewrite bool_decide_eq_true_2.
Qed.

(** One round on a frame in time whose decoding or translation
    raises: the exception is none of the two the round catches. *)
Lemma receive_one_raises request w delay message_str rest e :
  pending w = (delay, Frame message_str) :: rest →
  (delay < 20)%Q →
  fragment_of message_str = Err e →
  receive_one request w = ([], set_pending rest w, Raise e).
Proof.
  intros Hp Hd Hv. rewrite receive_one_round. unfold round.
  by rewrite Hp, (in_time _ Hd), Hv.
Qed.

(** The round on a message tagged [AgentThinkObservation], by cases on
    its [content]. *)
Lemma receive_one_think request w d delay rest :
  d !! "observation" = Some (PStr "AgentThinkObservation") →
  pending w = (delay, Frame (Json (PDict d))) :: rest →
  (delay < 20)%Q →
  receive_one request w
  = match d !! "content" with
    | Some v =>
        if truthy v then
          ([Yield (content_frame (clock w (ticks w)) request v)],
           tick (set_pending rest w), Ret Continue)
        else ([], set_pending rest w, Ret Continue)
    | None => ([], set_pending rest w, Raise (KeyError "content"))
    end.
Proof.
  intros Hobs Hp Hd.
  assert (fragment_of (Json (PDict d)) = py_getitem (PDict d) "content") as Hv.
  { change (content_chunk_of (PDict d) = py_getitem (PDict d) "content").
    rewrite content_chunk_of_dict. apply tag_is_true in Hobs.
    by rewrite Hobs. }
  simpl in Hv. destruct (d !! "content") as [v|].
  - by apply (receive_one_frame request w delay (Json (PDict d)) rest v).
  - by apply (receive_one_raises request w delay (Json (PDict d)) rest).
Qed.

(** C10, amended.  A message that carries both the [observation] tag
    [AgentThinkObservation] and the [action] tag [CmdRunAction] goes
    through the observation branch alone.  Its content chunk is what
    [message["content"]] gives, and the round that receives it does
    what that says: with a truthy [content] it yields one frame, whose
    [delta.content] is the [content] field; with a falsy [content]
    (the empty string, for one) it yields nothing and goes on; without
    a [content] field it raises [KeyError].  A frame is yielded only
    in the first case.  The command is never read: the round is the
    same for every message with the observation tag and the same
    [content], whatever its [action] and [args] are.  It is the
    observation tag that keeps the command block away: the same
    message without it is translated to the block around its
    command. *)
Theorem observation_before_action request w d delay rest :
  d !! "observation" = Some (PStr "AgentThinkObservation") →
  d !! "action" = Some (PStr "CmdRunAction") →
  pending w = (delay, Frame (Json (PDict d))) :: rest →
  (delay < 20)%Q →
  content_chunk_of (PDict d) = py_getitem (PDict d) "content"
  ∧ receive_one request w
    = match d !! "content" with
      | Some v =>
          if truthy v then
            ([Yield (content_frame (clock w (ticks w)) request v)],
             tick (set_pending rest w), Ret Continue)
          else ([], set_pending rest w, Ret Continue)
      | None => ([], set_pending rest w, Raise (KeyError "content"))
      end
  ∧ (∀ chunk,
       chunk ∈ yields (receive_one request w).1.1
       ↔ ∃ v, d !! "content" = Some v ∧ truthy v = true
              ∧ chunk = content_frame (clock w (ticks w)) request v
              ∧ content_of chunk = Some v)
  ∧ (∀ d',
       d' !! "observation" = Some (PStr "AgentThinkObservation") →
       d' !! "content" = d !! "content" →
       receive_one request
         (set_pending ((delay, Frame (Json (PDict d'))) :: rest) w)
       = receive_one request w)
  ∧ (∀ args c,
       d !! "args" = Some (PDict args) →
       args !! "command" = Some (PStr c) →
       content_chunk_of (PDict (delete "observation" d))
       = Ok (PStr ("

Running command:
```bash
" +:+ c +:+ "
```

"))).
Proof.
  intros Hobs Hact Hp Hd.
  pose proof (receive_one_think request w d delay rest Hobs Hp Hd) as Hround.
  split_and!.
  - rewrite content_chunk_of_dict. apply tag_is_true in Hobs. by rewrite Hobs.
  - done.
  - intros chunk. rewrite Hround. split.
    + destruct (d !! "content") as [v|]; [|by intros ?%elem_of_nil].
      destruct (truthy v) eqn:Hv; [|by intros ?%elem_of_nil].
      intros ->%list_elem_of_singleton. by exists v.
    + intros (v & -> & -> & -> & _). apply list_elem_of_here.
  - intros d' Hobs' Hc. rewrite Hround.
    rewrite (receive_one_think request
               (set_pending ((delay, Frame (Json (PDict d'))) :: rest) w)
               d' delay rest Hobs' eq_refl Hd).
    by rewrite Hc.
  - intros args c Hargs Hcmd. rewrite content_chunk_of_dict.
    assert (tag_is "observation" "AgentThinkObservation"
              (delete "observation" d) = false) as ->.
    { apply tag_is_false. by rewrite lookup_delete_eq. }
    assert (tag_is "action" "CmdRunAction" (delete "observation" d) = true)
      as ->.
    { apply tag_is_true. by rewrite lookup_delete_ne. }
    simpl. rewrite lookup_delete_ne by done. rewrite Hargs. simpl.
    by rewrite Hcmd.
Qed.

(** ** The frames of a whole run *)

Lemma yields_epilogue request w o :
  yields (epilogue request w o) = [done_chunk (clock w (ticks w)) request].
Proof. by destruct o. Qed.

(** A run yields the frames of its loop and then the final chunk, and
    returns. *)
Lemma stream_agent_responses_yields request w :
  ∃ tr w' frames,
    stream_agent_responses request w = (tr, tick w', Ret tt)
    ∧ yields tr = frames ++ [done_chunk (clock w' (ticks w')) request]
    ∧ Forall (loop_frame request w) frames.
Proof.
  pose proof (stream_agent_responses_run request w) as Hrun. simpl in Hrun.
  destruct (connect_error w) as [e|].
  { eexists _, w, []. by rewrite Hrun. }
  destruct (send_error w) as [e|].
  { eexists _, w, []. by rewrite Hrun. }
  destruct Hrun as (tr & w' & o & Hrec & ->).
  eexists _, w', (yields tr). split; [done|]. split.
  - change (yields (tr ++ epilogue request w' o) = yields tr ++ [done_chunk (clock w' (ticks w')) request]).
    by rewrite yields_app, yields_epilogue.
  - by eapply receives_yields.
Qed.

Lemma loop_frame_not_terminal request w chunk :
  loop_frame request w chunk → is_terminal chunk = false.
Proof. by intros (now & delay & m & v & -> & _). Qed.

(** C1. A request with [stream = true] is answered by an event stream
    whose last frame is terminal (its [delta] is empty and its
    [finish_reason] is "stop") and none of whose other frames is, so
    there is exactly one; the generator then returns.  This holds in
    every world: whether [connect] or [send] raises, and whether the
    loop ends on a timeout, on a close or on another exception. *)
Theorem one_terminal_frame_last request w :
  stream request = true →
  ∃ frames final,
    body (serve request w) = EventStream (frames ++ [final])
    ∧ delta_of final = Some ∅
    ∧ finish_reason_of final = Some (PStr "stop")
    ∧ is_terminal final = true
    ∧ Forall (λ chunk, is_terminal chunk = false) frames
    ∧ ending (serve request w) = Ret tt.
Proof.
  intros Hstream. unfold serve, chat_completions. rewrite Hstream.
  destruct (stream_agent_responses_yields request w)
    as (tr & w' & frames & -> & -> & Hframes).
  exists frames, (done_chunk (clock w' (ticks w')) request). simpl.
  repeat split; try done.
  eapply Forall_impl; [exact Hframes|]. apply loop_frame_not_terminal.
Qed.

(** C6. A request with [stream = false] gets the dict with the one key
    [error] and the text "Non-streaming not implemented yet", encoded
    as JSON; no generator is made, so nothing is done to the world: no
    channel is opened. *)
Theorem non_streaming_not_implemented request w :
  stream request = false →
  chat_completions request
  = JSONDict {[ "error" := PStr "Non-streaming not implemented yet" ]}
  ∧ body (serve request w)
    = JSONBody (PDict {[ "error" := PStr "Non-streaming not implemented yet" ]})
  ∧ content_type (serve request w) = "application/json"
  ∧ effects (serve request w) = []
  ∧ ∀ address, Connect address ∉ effects (serve request w).
Proof.
  intros Hstream. unfold serve, chat_completions. rewrite Hstream. simpl.
  repeat split. intros address Hin. by apply elem_of_nil in Hin.
Qed.

(** No frame reaches the loop in time: nothing is pending, or the
    next event comes 20 seconds or more after the receive started. *)
Definition silent (l : list (Q * inbound)) : Prop :=
  match l with
  | [] => True
  | (delay, _) :: _ => (20 <= delay)%Q
  end.


(** ** What is forwarded (claim C3) *)

(** The [args.content] of an envelope. *)
Definition forwarded_content (payload : pyval) : result pyval :=
  data ← py_getitem payload "data";
  args ← py_getitem data "args";
  py_getitem args "content".

Lemma first_user_message_spec msgs :
  (∃ before message rest,
     msgs = before ++ message :: rest
     ∧ Forall (λ m, role m ≠ "user") before
     ∧ role message = "user"
     ∧ first_user_message msgs = content message)
  ∨ (Forall (λ m, role m ≠ "user") msgs
     ∧ first_user_message msgs = EmptyString).
Proof.
  induction msgs as [|m msgs IH]; simpl.
  { right. by split. }
  case_bool_decide as Hrole.
  - left. by exists [], m, msgs.
  - destruct IH as [(before & message & rest & -> & Hb & Hm & ->)|[Hall ->]].
    + left. exists (m :: before), message, rest. by repeat split; [constructor|..].
    + right. by split; [constructor|].
Qed.

(** Membership in an explicit list, one entry at a time. *)
Ltac by_cases_on H :=
  repeat (apply elem_of_cons in H as [H|H]; [congruence|]);
  by apply elem_of_nil in H.

(** C3. The text sent to the agent is the [content] of the first
    message of the request whose [role] is "user", and the empty
    string when there is none.  Whatever it is, the generator goes on
    to connect; once connected it sends the envelope around that text,
    and it sends nothing else. *)
Theorem first_user_message_forwarded request w :
  let user_message := first_user_message (messages request) in
  let tr := (stream_agent_responses request w).1.1 in
  ((∃ before message rest,
      messages request = before ++ message :: rest
      ∧ Forall (λ m, role m ≠ "user") before
      ∧ role message = "user"
      ∧ user_message = content message)
   ∨ (Forall (λ m, role m ≠ "user") (messages request)
      ∧ user_message = EmptyString))
  ∧ Connect uri ∈ tr
  ∧ (connect_error w = None → Send (envelope user_message) ∈ tr)
  ∧ (∀ payload, Send payload ∈ tr → payload = envelope user_message)
  ∧ forwarded_content (envelope user_message) = Ok (PStr user_message).
Proof.
  intros user_message tr. split; [apply first_user_message_spec|].
  assert (forwarded_content (envelope user_message) = Ok (PStr user_message))
    as Hcontent by done.
  pose proof (stream_agent_responses_run request w) as Hrun. simpl in Hrun.
  fold user_message in Hrun. subst tr.
  destruct (connect_error w) as [e|].
  { rewrite Hrun. simpl. split_and!; [by repeat constructor|done| |done].
    intros payload Hin. by_cases_on Hin. }
  destruct (send_error w) as [e|].
  { rewrite Hrun. simpl. split_and!; [by repeat constructor..| |done].
    intros payload Hin. by_cases_on Hin. }
  destruct Hrun as (tr & w' & o & Hrec & ->). simpl.
  apply receives_quiet in Hrec.
  split_and!; [by repeat constructor..| |done].
  intros payload Hin.
  do 3 (apply elem_of_cons in Hin as [Hin|Hin]; [congruence|]).
  apply elem_of_app in Hin as [Hin|Hin].
  - rewrite Forall_forall in Hrec. by apply Hrec in Hin.
  - unfold epilogue in Hin. destruct o; by_cases_on Hin.
Qed.

(** ** Frames and the messages they come from (claims C9, C8 and C2) *)

(** C9, amended.  A frame of the stream that is not terminal has
    [finish_reason] [None] and a [delta] with the one key [content],
    whose value is truthy.  That value is a string, then not empty,
    except when it is the [content] field of a pending message tagged
    [AgentThinkObservation]: such a field is passed on as it is, string
    or not. *)
Theorem content_frame_shape request w chunk :
  chunk ∈ yields (stream_agent_responses request w).1.1 →
  is_terminal chunk = false →
  finish_reason_of chunk = Some PNone
  ∧ ∃ v, delta_of chunk = Some {[ "content" := v ]}
         ∧ truthy v = true
         ∧ ((∃ s, v = PStr s ∧ s ≠ EmptyString)
            ∨ ∃ delay d,
                (delay, Frame (Json (PDict d))) ∈ pending w
                ∧ d !! "observation" = Some (PStr "AgentThinkObservation")
                ∧ d !! "content" = Some v).
Proof.
  intros Hin Hnot.
  destruct (stream_agent_responses_yields request w)
    as (tr & w' & frames & Hrun & Hyields & Hframes).
  rewrite Hrun in Hin. simpl in Hin. rewrite Hyields in Hin.
  apply elem_of_app in Hin as [Hin|Hin].
  - rewrite Forall_forall in Hframes.
    destruct (Hframes _ Hin) as (now & delay & m & v & -> & Hp & Hv & Ht).
    split; [done|]. exists v. split; [done|]. split; [done|].
    destruct m as [message|raw]; [|done]. simpl in Hv.
    apply content_chunk_of_ok in Hv as [[s ->]|(d & -> & Hobs & Hc)].
    + left. exists s. split; [done|]. intros ->. done.
    + right. by exists delay, d.
  - apply list_elem_of_singleton in Hin as ->.
    by rewrite is_terminal_done_chunk in Hnot.
Qed.

(** The command block of claim C4 around [text]. *)
Definition running_command (text : string) : string :=
  "

Running command:
```bash
" +:+ text +:+ "
```

".

(** The translation of a JSON object by its kind: the [content] of an
    observation tagged [AgentThinkObservation], the command block of
    an action tagged [CmdRunAction], nothing for any other object. *)
Definition translation (d : gmap string pyval) : option pyval :=
  if tag_is "observation" "AgentThinkObservation" d then d !! "content"
  else if tag_is "action" "CmdRunAction" d then
    match d !! "args" with
    | Some (PDict args) =>
        (λ command, PStr (running_command (py_format command)))
          <$> args !! "command"
    | _ => None
    end
  else None.

(** An object of one of the two kinds has the fields its kind is read
    from. *)
Definition well_formed (d : gmap string pyval) : Prop :=
  tag_is "observation" "AgentThinkObservation" d = true
  ∨ tag_is "action" "CmdRunAction" d = true →
  is_Some (translation d).

(** A JSON object as an event, [a.1] seconds into the receive. *)
Definition arrive (a : Q * gmap string pyval) : Q * inbound :=
  (a.1, Frame (Json (PDict a.2))).

(** Nothing more is received: no event is left, or the next one is
    late, or it is an exception of [recv]. *)
Definition session_over (l : list (Q * inbound)) : Prop :=
  match l with
  | [] => True
  | (delay, event) :: _ => (20 <= delay)%Q ∨ ∃ e, event = RecvRaises e
  end.

Lemma content_chunk_of_well_formed d :
  well_formed d →
  content_chunk_of (PDict d) = Ok (default (PStr EmptyString) (translation d)).
Proof.
  unfold well_formed, translation. rewrite content_chunk_of_dict.
  destruct (tag_is "observation" _ d).
  { intros [c Hc]; [by left|]. simpl. by rewrite Hc. }
  destruct (tag_is "action" _ d); [|done].
  intros [c Hc]; [by right|]. simpl.
  destruct (d !! "args") as [[| | | | | |args]|]; try done. simpl.
  by destruct (args !! "command").
Qed.

Lemma fragment_of_json message :
  fragment_of (Json message) = content_chunk_of message.
Proof. done. Qed.

Lemma stamped_length request clock k vs :
  length (stamped request clock k vs) = length vs.
Proof. revert k. induction vs; intros k; simpl; by rewrite ?IHvs. Qed.

Lemma yields_Yield frames : yields (Yield <$> frames) = frames.
Proof. induction frames; simpl; by f_equal. Qed.

Lemma kept_arrive msgs :
  Forall (λ a, (a.1 < 20)%Q ∧ well_formed a.2) msgs →
  Forall (λ a, goes_on a = true) (arrive <$> msgs)
  ∧ omap kept (arrive <$> msgs)
    = filter (λ v, truthy v) (omap (λ a, translation a.2) msgs).
Proof.
  induction 1 as [|[delay d] msgs [Hd Hwf] _ [IH1 IH2]]; [done|].
  simpl in Hd, Hwf. apply in_time in Hd.
  apply content_chunk_of_well_formed in Hwf.
  split.
  - constructor; [|done]. unfold goes_on, arrive. cbn [fst snd].
    by rewrite fragment_of_json, Hd, Hwf.
  - rewrite fmap_cons. cbn [omap list_omap]. rewrite IH2.
    unfold kept at 1, arrive at 1. cbn [fst snd].
    rewrite fragment_of_json, Hwf.
    destruct (translation d) as [v|]; simpl; [|done].
    rewrite filter_cons. by destruct (truthy v).
Qed.

(** The loop yields nothing once the session is over. *)
Lemma receives_session_over request w tr w' o :
  session_over (pending w) →
  receives request w tr w' o →
  yields tr = [] ∧ clock w' = clock w ∧ ticks w' = ticks w.
Proof.
  intros Hover Hrec. apply receives_stop in Hrec. unfold session_over in Hover.
  destruct (pending w) as [|[delay event] rest].
  { by destruct Hrec as (-> & -> & ->). }
  destruct (Qle_bool 20 delay) eqn:Hd.
  { by destruct Hrec as (-> & -> & ->). }
  destruct Hover as [Hlate|[e ->]].
  - apply Qle_bool_iff in Hlate. congruence.
  - by destruct e; destruct Hrec as (-> & -> & ->).
Qed.

(** C8, amended.  Take any finite sequence of messages that are JSON
    objects, each received in time and, when it is of one of the two
    kinds, carrying the fields of its kind; after them the session is
    over.  Then the frames before the terminal one are the frames of
    the truthy translations of the [AgentThinkObservation] and
    [CmdRunAction] messages, in the order of arrival (the [k]-th frame
    is stamped with the [k]-th reading of the clock).  An object of any
    other kind has no translation: it gives no frame, and the frames of
    the messages after it are still there. *)
Theorem frames_in_arrival_order request w msgs rest :
  connect_error w = None →
  send_error w = None →
  pending w = (arrive <$> msgs) ++ rest →
  Forall (λ a, (a.1 < 20)%Q ∧ well_formed a.2) msgs →
  session_over rest →
  let fragments :=
    filter (λ v, truthy v) (omap (λ a, translation a.2) msgs) in
  yields (stream_agent_responses request w).1.1
  = stamped request (clock w) (ticks w) fragments
    ++ [done_chunk (clock w (length fragments + ticks w)) request].
Proof.
  intros Hconnect Hsend Hp Hmsgs Hover fragments.
  pose proof (stream_agent_responses_run request w) as Hrun. simpl in Hrun.
  rewrite Hconnect, Hsend in Hrun.
  destruct Hrun as (tr & w' & o & Hrec & ->).
  apply kept_arrive in Hmsgs as [Hgo Hkept]. fold fragments in Hkept.
  eapply receives_through in Hrec as (tr2 & -> & Hrec); [|done..].
  rewrite Hkept in Hrec |- *.
  apply receives_session_over in Hrec as (Hnone & Hclock & Hticks); [|done].
  change (yields (((Yield <$> stamped request (clock w) (ticks w) fragments)
                   ++ tr2) ++ epilogue request w' o)
          = stamped request (clock w) (ticks w) fragments
            ++ [done_chunk (clock w (length fragments + ticks w)) request]).
  rewrite !yields_app, yields_Yield, Hnone, yields_epilogue, Hclock, Hticks.
  by rewrite app_nil_r.
Qed.

(** A message received in time is skipped (it is taken, nothing is
    yielded and the loop goes on) exactly when it decodes and its
    translation gives a falsy content chunk. *)
Lemma receive_one_skips request w delay message_str rest :
  pending w = (delay, Frame message_str) :: rest →
  (delay < 20)%Q →
  receive_one request w = ([], set_pending rest w, Ret Continue)
  ↔ ∃ v, fragment_of message_str = Ok v ∧ truthy v = false.
Proof.
  intros Hp Hd. split.
  - destruct (fragment_of message_str) as [v|e] eqn:Hv.
    + rewrite (receive_one_frame request w delay message_str rest v) by done.
      destruct (truthy v) eqn:Ht; [done|]. by exists v.
    + by rewrite (receive_one_raises request w delay message_str rest e).
  - intros (v & Hv & Ht).
    rewrite (receive_one_frame request w delay message_str rest v) by done.
    by rewrite Ht.
Qed.

(** A JSON object of neither kind is translated to the empty string. *)
Lemma fragment_of_other_kind d :
  d !! "observation" ≠ Some (PStr "AgentThinkObservation") →
  d !! "action" ≠ Some (PStr "CmdRunAction") →
  fragment_of (Json (PDict d)) = Ok (PStr EmptyString).
Proof.
  intros Hobs Hact. rewrite fragment_of_json, content_chunk_of_dict.
  apply tag_is_false in Hobs, Hact. by rewrite Hobs, Hact.
Qed.

(** C2, amended.  A message that cannot be decoded, or whose
    translation raises (an object tagged [AgentThinkObservation]
    without [content], for one), is not skipped: it ends the receive
    loop.  The exception leaves the loop, the channel is closed, the
    outer handler logs the exception, and the terminal frame follows
    the frames yielded so far.  The events after the message are never
    received: they are still pending when the generator returns.  What
    is skipped, the loop going on, is a message that decodes and whose
    translation gives a falsy content chunk, and nothing else; a JSON
    object of neither kind is such a message. *)
Theorem malformed_message_ends_session request w pre delay message_str rest e :
  connect_error w = None →
  send_error w = None →
  pending w = pre ++ (delay, Frame message_str) :: rest →
  Forall (λ a, goes_on a = true) pre →
  (delay < 20)%Q →
  fragment_of message_str = Err e →
  let user_message := first_user_message (messages request) in
  let n := length (omap kept pre) in
  stream_agent_responses request w
  = ([Log (UserMessage user_message); Connect uri; Send (envelope user_message)]
     ++ (Yield <$> stamped request (clock w) (ticks w) (omap kept pre))
     ++ [Close; Log (ErrorConnecting e);
         Yield (done_chunk (clock w (n + ticks w)) request)],
     tick (after rest n w), Ret tt)
  ∧ (∀ w0 delay0 message0 rest0,
       pending w0 = (delay0, Frame message0) :: rest0 →
       (delay0 < 20)%Q →
       receive_one request w0 = ([], set_pending rest0 w0, Ret Continue)
       ↔ ∃ v, fragment_of message0 = Ok v ∧ truthy v = false)
  ∧ (∀ d,
       d !! "observation" ≠ Some (PStr "AgentThinkObservation") →
       d !! "action" ≠ Some (PStr "CmdRunAction") →
       fragment_of (Json (PDict d)) = Ok (PStr EmptyString)).
Proof.
  intros Hconnect Hsend Hp Hpre Hd Hv user_message n.
  split_and!;
    [|exact (receive_one_skips request)|exact fragment_of_other_kind].
  pose proof (stream_agent_responses_run request w) as Hrun. simpl in Hrun.
  rewrite Hconnect, Hsend in Hrun.
  destruct Hrun as (tr & w' & o & Hrec & ->).
  eapply receives_through in Hrec as (tr2 & -> & Hrec); [|done..].
  apply receives_stop in Hrec. simpl in Hrec.
  rewrite (in_time _ Hd), Hv in Hrec. destruct Hrec as (-> & -> & ->).
  by rewrite app_nil_r.
Qed.

(** The two messages that claim C2 names raise. *)
Lemma malformed_examples raw d :
  fragment_of (NotJson raw) = Err JSONDecodeError
  ∧ (d !! "observation" = Some (PStr "AgentThinkObservation") →
     d !! "content" = None →
     fragment_of (Json (PDict d)) = Err (KeyError "content")).
Proof.
  split; [done|]. intros Hobs Hc. rewrite fragment_of_json, content_chunk_of_dict.
  apply tag_is_true in Hobs. rewrite Hobs. simpl. by rewrite Hc.
Qed.

End Bridge.

(** ** Sample sessions *)

(** No sample below formats a command that is not a string, so [str]
    is never called in them; this stands in for it. *)
Definition no_str : pyval → string := λ _, EmptyString.

Definition request_hi : ChatCompletionRequest :=
  {| model := "openhands";
     messages := [ {| role := "system"; content := "You are an agent." |};
                   {| role := "user"; content := "hi" |} ];
     stream := true |}.

Definition request_plain : ChatCompletionRequest :=
  {| model := "openhands";
     messages := [ {| role := "user"; content := "hi" |} ];
     stream := false |}.

(** An agent that accepts the connection and the envelope, and then
    sends [arrivals]; the clock starts at 1700000000. *)
Definition agent (arrivals : list (Q * inbound)) : world :=
  {| connect_error := None; send_error := None; pending := arrivals;
     clock := λ k, (1700000000 + Z.of_nat k)%Z; ticks := 0 |}.


Definition think (c : pyval) : gmap string pyval :=
  {[ "observation" := PStr "AgentThinkObservation"; "content" := c ]}.

Definition cmd_run (c : string) : gmap string pyval :=
  {[ "action" := PStr "CmdRunAction";
     "args" := PDict {[ "command" := PStr c ]} ]}.

Definition think_without_content : gmap string pyval :=
  {[ "observation" := PStr "AgentThinkObservation" ]}.

Definition think_and_cmd : gmap string pyval :=
  {[ "observation" := PStr "AgentThinkObservation";
     "content" := PStr "thinking...";
     "action" := PStr "CmdRunAction";
     "args" := PDict {[ "command" := PStr "ls -la" ]} ]}.

Definition at_once (d : gmap string pyval) : Q * inbound :=
  (1%Q, Frame (Json (PDict d))).

(** The examples of the specification. *)
Example forwarded_hi : first_user_message (messages request_hi) = "hi".
Proof. reflexivity. Qed.

Example thinking_verbatim :
  content_chunk_of no_str (PDict (think (PStr "thinking...")))
  = Ok (PStr "thinking...").
Proof. reflexivity. Qed.

Example think_then_ls :
  omap content_of
    (yields (stream_agent_responses no_str request_hi
               (agent [at_once (think (PStr "thinking..."));
                       at_once {[ "observation" := PStr "NullObservation" ]};
                       at_once (cmd_run "ls -la")])).1.1)
  = [PStr "thinking..."; PStr (running_command "ls -la")].
Proof. vm_compute. reflexivity. Qed.

(** ** Witnesses and counterexamples *)

Lemma one_terminal_frame_last_witness :
  stream request_hi = true
  ∧ ∃ frames final,
      body (serve no_str request_hi (agent [at_once (think (PStr "a"))]))
      = EventStream (frames ++ [final])
      ∧ delta_of final = Some ∅
      ∧ finish_reason_of final = Some (PStr "stop")
      ∧ is_terminal final = true
      ∧ Forall (λ chunk, is_terminal chunk = false) frames
      ∧ ending (serve no_str request_hi (agent [at_once (think (PStr "a"))]))
        = Ret tt.
Proof.
  split; [reflexivity|].
  apply (one_terminal_frame_last no_str request_hi). reflexivity.
Defined.

(** C2 as stated fails: an [AgentThinkObservation] without [content]
    makes the round raise [KeyError], and text that is not JSON makes
    it raise [JSONDecodeError]; in both sessions the stream is the
    terminal frame alone and the message that came next is still
    pending at the end, never received. *)
Lemma malformed_message_not_skipped :
  let w1 := agent [at_once think_without_content; at_once (think (PStr "hi"))] in
  let w2 := agent [(1%Q, Frame (NotJson "ping")); at_once (think (PStr "hi"))] in
  (receive_one no_str request_hi w1).2 = Raise (KeyError "content")
  ∧ yields (stream_agent_responses no_str request_hi w1).1.1
    = [done_chunk 1700000000 request_hi]
  ∧ pending (stream_agent_responses no_str request_hi w1).1.2
    = [at_once (think (PStr "hi"))]
  ∧ (receive_one no_str request_hi w2).2 = Raise JSONDecodeError
  ∧ yields (stream_agent_responses no_str request_hi w2).1.1
    = [done_chunk 1700000000 request_hi]
  ∧ pending (stream_agent_responses no_str request_hi w2).1.2
    = [at_once (think (PStr "hi"))].
Proof. intros w1 w2. split_and!; vm_compute; reflexivity. Qed.

Lemma malformed_message_ends_session_witness :
  let w := agent [at_once (think (PStr "a")); (1%Q, Frame (NotJson "ping"));
                  at_once (think (PStr "b"))] in
  let pre := [at_once (think (PStr "a"))] in
  let rest := [at_once (think (PStr "b"))] in
  let n := length (omap (kept no_str) pre) in
  (pending w = pre ++ (1%Q, Frame (NotJson "ping")) :: rest
   ∧ Forall (λ a, goes_on no_str a = true) pre
   ∧ (1 < 20)%Q
   ∧ fragment_of no_str (NotJson "ping") = Err JSONDecodeError)
  ∧ stream_agent_responses no_str request_hi w
    = ([Log (UserMessage (first_user_message (messages request_hi)));
        Connect uri; Send (envelope (first_user_message (messages request_hi)))]
       ++ (Yield <$> stamped request_hi (clock w) (ticks w) (omap (kept no_str) pre))
       ++ [Close; Log (ErrorConnecting JSONDecodeError);
           Yield (done_chunk (clock w (n + ticks w)) request_hi)],
       tick (after rest n w), Ret tt)
  ∧ (∀ w0 delay0 message0 rest0,
       pending w0 = (delay0, Frame message0) :: rest0 →
       (delay0 < 20)%Q →
       receive_one no_str request_hi w0
       = ([], set_pending rest0 w0, Ret Continue)
       ↔ ∃ v, fragment_of no_str message0 = Ok v ∧ truthy v = false)
  ∧ (∀ d,
       d !! "observation" ≠ Some (PStr "AgentThinkObservation") →
       d !! "action" ≠ Some (PStr "CmdRunAction") →
       fragment_of no_str (Json (PDict d)) = Ok (PStr EmptyString)).
Proof.
  intros w pre rest n.
  assert (Forall (λ a, goes_on no_str a = true) pre) as Hpre
    by (repeat constructor).
  split; [by split_and!|].
  exact (malformed_message_ends_session no_str request_hi w pre 1%Q
           (NotJson "ping") rest JSONDecodeError
           eq_refl eq_refl eq_refl Hpre eq_refl eq_refl).
Defined.

Lemma cmd_run_fragment_witness :
  let w := agent [at_once (cmd_run "ls -la")] in
  let fragment := PStr ("

Running command:
```bash
" +:+ "ls -la" +:+ "
```

") in
  (cmd_run "ls -la" !! "action" = Some (PStr "CmdRunAction")
   ∧ cmd_run "ls -la" !! "observation" ≠ Some (PStr "AgentThinkObservation")
   ∧ (1 < 20)%Q)
  ∧ content_chunk_of no_str (PDict (cmd_run "ls -la")) = Ok fragment
  ∧ receive_one no_str request_hi w =
    ([Yield (content_frame (clock w (ticks w)) request_hi fragment)],
     tick (set_pending [] w), Ret Continue)
  ∧ content_of (content_frame (clock w (ticks w)) request_hi fragment)
    = Some fragment
  ∧ ("ls -la" = "ls -la" → fragment = PStr "

Running command:
```bash
ls -la
```

").
Proof.
  intros w fragment.
  assert (cmd_run "ls -la" !! "observation"
          ≠ Some (PStr "AgentThinkObservation")) as Hobs by done.
  split; [by split_and!|].
  exact (cmd_run_fragment no_str request_hi w (cmd_run "ls -la")
           {[ "command" := PStr "ls -la" ]} "ls -la" 1%Q []
           eq_refl Hobs eq_refl eq_refl eq_refl eq_refl).
Defined.

(** C5 as stated fails on the empty string: the message is translated
    to the empty string, which is falsy, so the round yields nothing
    and the stream is the terminal frame alone. *)
Lemma empty_content_not_emitted :
  let w := agent [at_once (think (PStr EmptyString))] in
  content_chunk_of no_str (PDict (think (PStr EmptyString))) = Ok (PStr EmptyString)
  ∧ (receive_one no_str request_hi w).1.1 = []
  ∧ (receive_one no_str request_hi w).2 = Ret Continue
  ∧ yields (stream_agent_responses no_str request_hi w).1.1
    = [done_chunk 1700000000 request_hi].
Proof. intros w. split_and!; vm_compute; reflexivity. Qed.

Lemma think_content_verbatim_witness :
  let w := agent [at_once (think (PStr "thinking..."))] in
  (think (PStr "thinking...") !! "observation"
   = Some (PStr "AgentThinkObservation")
   ∧ think (PStr "thinking...") !! "content" = Some (PStr "thinking...")
   ∧ (1 < 20)%Q)
  ∧ content_chunk_of no_str (PDict (think (PStr "thinking...")))
    = Ok (PStr "thinking...")
  ∧ ("thinking..." ≠ EmptyString →
     receive_one no_str request_hi w =
     ([Yield (content_frame (clock w (ticks w)) request_hi (PStr "thinking..."))],
      tick (set_pending [] w), Ret Continue)
     ∧ content_of (content_frame (clock w (ticks w)) request_hi
                     (PStr "thinking..."))
       = Some (PStr "thinking..."))
  ∧ ("thinking..." = EmptyString →
     receive_one no_str request_hi w = ([], set_pending [] w, Ret Continue)).
Proof.
  intros w. split; [by split_and!|].
  exact (think_content_verbatim no_str request_hi w
           (think (PStr "thinking...")) "thinking..." 1%Q []
           eq_refl eq_refl eq_refl eq_refl).
Defined.

Lemma non_streaming_not_implemented_witness :
  stream request_plain = false
  ∧ chat_completions no_str request_plain
    = JSONDict {[ "error" := PStr "Non-streaming not implemented yet" ]}
  ∧ body (serve no_str request_plain (agent []))
    = JSONBody (PDict {[ "error" := PStr "Non-streaming not implemented yet" ]})
  ∧ content_type (serve no_str request_plain (agent [])) = "application/json"
  ∧ effects (serve no_str request_plain (agent [])) = []
  ∧ ∀ address, Connect address ∉ effects (serve no_str request_plain (agent [])).
Proof.
  split; [reflexivity|].
  apply (non_streaming_not_implemented no_str request_plain (agent [])).
  reflexivity.
Defined.


(** C8 as stated fails.  In the first session text that is not JSON
    comes before a [CmdRunAction]: the command block claimed for that
    message is never yielded, the stream is the terminal frame alone.
    In the second an [AgentThinkObservation] with empty [content] is
    received: its translation is the empty string, and no frame
    carries it. *)
Lemma frames_miss_translations :
  let w1 := agent [(1%Q, Frame (NotJson "ping")); at_once (cmd_run "ls")] in
  let w2 := agent [at_once (think (PStr EmptyString))] in
  translation no_str (cmd_run "ls") = Some (PStr (running_command "ls"))
  ∧ yields (stream_agent_responses no_str request_hi w1).1.1
    = [done_chunk 1700000000 request_hi]
  ∧ translation no_str (think (PStr EmptyString)) = Some (PStr EmptyString)
  ∧ yields (stream_agent_responses no_str request_hi w2).1.1
    = [done_chunk 1700000000 request_hi].
Proof. intros w1 w2. split_and!; vm_compute; reflexivity. Qed.

Lemma frames_in_arrival_order_witness :
  let msgs := [(1%Q, think (PStr "a"));
               (1%Q, {[ "observation" := PStr "NullObservation" ]});
               (1%Q, cmd_run "ls")] in
  let w := agent (arrive <$> msgs) in
  let fragments :=
    filter (λ v, truthy v) (omap (λ a, translation no_str a.2) msgs) in
  (Forall (λ a, (a.1 < 20)%Q ∧ well_formed no_str a.2) msgs
   ∧ session_over []
   ∧ fragments = [PStr "a"; PStr (running_command "ls")])
  ∧ yields (stream_agent_responses no_str request_hi w).1.1
    = stamped request_hi (clock w) (ticks w) fragments
      ++ [done_chunk (clock w (length fragments + ticks w)) request_hi].
Proof.
  intros msgs w fragments.
  assert (Forall (λ a, (a.1 < 20)%Q ∧ well_formed no_str a.2) msgs) as Hmsgs.
  { repeat constructor; intros Htag; vm_compute in Htag |- *;
      first [by eauto | by destruct Htag]. }
  split; [by split_and!|].
  exact (frames_in_arrival_order no_str request_hi w msgs []
           eq_refl eq_refl (eq_sym (app_nil_r _)) Hmsgs I).
Defined.

(** C9 as stated fails: an [AgentThinkObservation] whose [content] is
    the number 5 gives a frame that is not terminal and whose
    [delta.content] is that number, not a string. *)
Lemma content_not_a_string :
  let w := agent [at_once (think (PInt 5))] in
  let frames := yields (stream_agent_responses no_str request_hi w).1.1 in
  frames = [content_frame 1700000000 request_hi (PInt 5);
            done_chunk 1700000001 request_hi]
  ∧ is_terminal (content_frame 1700000000 request_hi (PInt 5)) = false
  ∧ content_of (content_frame 1700000000 request_hi (PInt 5)) = Some (PInt 5).
Proof. intros w frames. split_and!; vm_compute; reflexivity. Qed.

Lemma content_frame_shape_witness :
  let w := agent [at_once (think (PStr "a"))] in
  let chunk := content_frame 1700000000 request_hi (PStr "a") in
  (chunk ∈ yields (stream_agent_responses no_str request_hi w).1.1
   ∧ is_terminal chunk = false)
  ∧ finish_reason_of chunk = Some PNone
  ∧ ∃ v, delta_of chunk = Some {[ "content" := v ]}
         ∧ truthy v = true
         ∧ ((∃ s, v = PStr s ∧ s ≠ EmptyString)
            ∨ ∃ delay d,
                (delay, Frame (Json (PDict d))) ∈ pending w
                ∧ d !! "observation" = Some (PStr "AgentThinkObservation")
                ∧ d !! "content" = Some v).
Proof.
  intros w chunk.
  assert (chunk ∈ yields (stream_agent_responses no_str request_hi w).1.1)
    as Hin.
  { assert (yields (stream_agent_responses no_str request_hi w).1.1
            = [chunk; done_chunk 1700000001 request_hi]) as ->
      by (vm_compute; reflexivity).
    apply list_elem_of_here. }
  split; [by split|].
  exact (content_frame_shape no_str request_hi w chunk Hin eq_refl).
Defined.

(** C10 as stated fails when the [content] is empty or missing: the
    message carries both tags, yet no fragment is emitted for it.  With
    the empty string the round yields nothing and the stream is the
    terminal frame alone; without [content] the round raises
    [KeyError], the stream is the terminal frame alone and the message
    that came next is never received. *)
Lemma both_tags_nothing_emitted :
  let empty := <["content" := PStr EmptyString]> think_and_cmd in
  let missing := delete "content" think_and_cmd in
  let w1 := agent [at_once empty] in
  let w2 := agent [at_once missing; at_once (think (PStr "hi"))] in
  (empty !! "observation" = Some (PStr "AgentThinkObservation")
   ∧ empty !! "action" = Some (PStr "CmdRunAction")
   ∧ empty !! "content" = Some (PStr EmptyString))
  ∧ (receive_one no_str request_hi w1).1.1 = []
  ∧ (receive_one no_str request_hi w1).2 = Ret Continue
  ∧ yields (stream_agent_responses no_str request_hi w1).1.1
    = [done_chunk 1700000000 request_hi]
  ∧ (missing !! "observation" = Some (PStr "AgentThinkObservation")
     ∧ missing !! "action" = Some (PStr "CmdRunAction")
     ∧ missing !! "content" = None)
  ∧ (receive_one no_str request_hi w2).1.1 = []
  ∧ (receive_one no_str request_hi w2).2 = Raise (KeyError "content")
  ∧ yields (stream_agent_responses no_str request_hi w2).1.1
    = [done_chunk 1700000000 request_hi]
  ∧ pending (stream_agent_responses no_str request_hi w2).1.2
    = [at_once (think (PStr "hi"))].
Proof. intros empty missing w1 w2. split_and!; vm_compute; reflexivity. Qed.

Lemma observation_before_action_witness :
  let w := agent [at_once think_and_cmd] in
  (think_and_cmd !! "observation" = Some (PStr "AgentThinkObservation")
   ∧ think_and_cmd !! "action" = Some (PStr "CmdRunAction")
   ∧ pending w = [at_once think_and_cmd]
   ∧ (1 < 20)%Q)
  ∧ content_chunk_of no_str (PDict think_and_cmd)
    = py_getitem (PDict think_and_cmd) "content"
  ∧ receive_one no_str request_hi w
    = match think_and_cmd !! "content" with
      | Some v =>
          if truthy v then
            ([Yield (content_frame (clock w (ticks w)) request_hi v)],
             tick (set_pending [] w), Ret Continue)
          else ([], set_pending [] w, Ret Continue)
      | None => ([], set_pending [] w, Raise (KeyError "content"))
      end
  ∧ (∀ chunk,
       chunk ∈ yields (receive_one no_str request_hi w).1.1
       ↔ ∃ v, think_and_cmd !! "content" = Some v ∧ truthy v = true
              ∧ chunk = content_frame (clock w (ticks w)) request_hi v
              ∧ content_of chunk = Some v)
  ∧ (∀ d',
       d' !! "observation" = Some (PStr "AgentThinkObservation") →
       d' !! "content" = think_and_cmd !! "content" →
       receive_one no_str request_hi
         (set_pending ((1%Q, Frame (Json (PDict d'))) :: []) w)
       = receive_one no_str request_hi w)
  ∧ (∀ args c,
       think_and_cmd !! "args" = Some (PDict args) →
       args !! "command" = Some (PStr c) →
       content_chunk_of no_str (PDict (delete "observation" think_and_cmd))
       = Ok (PStr ("

Running command:
```bash
" +:+ c +:+ "
```

"))).
Proof.
  intros w. split; [by split_and!|].
  exact (observation_before_action no_str request_hi w think_and_cmd 1%Q []
           eq_refl eq_refl eq_refl eq_refl).
Defined.

(** The round on the message of the witness: one frame, whose
    [delta.content] is the [content] field and not the command block. *)
Example think_and_cmd_round :
  let w := agent [at_once think_and_cmd] in
  (receive_one no_str request_hi w).1.1
  = [Yield (content_frame 1700000000 request_hi (PStr "thinking..."))]
  ∧ (receive_one no_str request_hi w).2 = Ret Continue
  ∧ yields (stream_agent_responses no_str request_hi w).1.1
    = [content_frame 1700000000 request_hi (PStr "thinking...");
       done_chunk 1700000001 request_hi].
Proof. intros w. split_and!; vm_compute; reflexivity. Qed.

Example think_and_cmd_content :
  content_chunk_of no_str (PDict think_and_cmd) = Ok (PStr "thinking...").
Proof. reflexivity. Qed.

(** * The life of the channel, the log and the clock *)

(** The actions on the channel, in order. *)
Definition channel_ops (tr : list action) : list action :=
  omap (λ a, match a with
             | Connect _ | Send _ | Close => Some a
             | _ => None
             end) tr.

(** The lines printed, in order. *)
Definition logs (tr : list action) : list log_line :=
  omap (λ a, match a with Log line => Some line | _ => None end) tr.

(** The [created] field of a chunk. *)
Definition created_of (chunk : pyval) : option pyval :=
  match chunk with
  | PDict c => c !! "created"
  | _ => None
  end.

(** A top-level field of a chunk. *)
Definition field_of (key : string) (chunk : pyval) : option pyval :=
  match chunk with
  | PDict c => c !! key
  | _ => None
  end.

(** [needle] occurs in [hay]. *)
Definition occurs_in (needle hay : string) : Prop :=
  ∃ before rest, hay = before +:+ needle +:+ rest.

(** An entry that an explicit list does not hold. *)
Ltac not_listed H :=
  repeat (apply elem_of_cons in H as [H|H]; [discriminate|]);
  by apply elem_of_nil in H.

Section Lifecycle.

Variable py_str : pyval → string.

(** A round never changes the endpoint or the clock, and takes at
    most the first pending event. *)
Lemma round_world request w tr w' o :
  round py_str request w = (tr, w', o) →
  clock w' = clock w
  ∧ connect_error w' = connect_error w
  ∧ send_error w' = send_error w
  ∧ ∃ taken, pending w = taken ++ pending w' ∧ length taken ≤ 1.
Proof.
  unfold round. destruct (pending w) as [|[delay event] rest] eqn:Hp.
  { intros [= <- <- <-]. split_and!; try done. exists []. split; [done|simpl; lia]. }
  destruct (Qle_bool 20 delay).
  { intros [= <- <- <-]. split_and!; try done. exists []. split; [done|simpl; lia]. }
  assert (∃ taken, (delay, event) :: rest = taken ++ rest ∧ length taken ≤ 1)
    as Htaken by (exists [(delay, event)]; split; [done|simpl; lia]).
  destruct event as [message_str|e].
  - destruct (fragment_of py_str message_str) as [v|].
    + by destruct (truthy v); intros [= <- <- <-].
    + by intros [= <- <- <-].
  - by destruct e; intros [= <- <- <-].
Qed.

Lemma round_break request w tr w' :
  round py_str request w = (tr, w', Ret Break) →
  (tr = [Log TimeoutWaiting] ∨ tr = [Log ClosedByServer])
  ∧ ticks w' = ticks w.
Proof.
  unfold round. destruct (pending w) as [|[delay event] rest].
  { intros [= <- <-]. auto. }
  destruct (Qle_bool 20 delay). { intros [= <- <-]. auto. }
  destruct event as [message_str|e].
  - destruct (fragment_of py_str message_str) as [v|]; [|done].
    by destruct (truthy v).
  - destruct e; intros [= <- <-]; auto.
Qed.

Lemma round_raise request w tr w' e :
  round py_str request w = (tr, w', Raise e) →
  tr = [] ∧ caught_inside e = false ∧ ticks w' = ticks w.
Proof.
  unfold round. destruct (pending w) as [|[delay event] rest]; [done|].
  destruct (Qle_bool 20 delay); [done|].
  destruct event as [message_str|e'].
  - destruct (fragment_of py_str message_str) as [v|e'] eqn:Hv.
    + by destruct (truthy v).
    + intros [= <- <- <-]. split_and!; try done. by eapply fragment_of_err.
  - by destruct e'; intros [= <- <- <-].
Qed.

(** A round that goes on takes the first pending event, and yields
    at most one frame, stamped with the next reading of the clock. *)
Lemma round_continue request w tr w' :
  round py_str request w = (tr, w', Ret Continue) →
  ∃ a vs,
    pending w = a :: pending w'
    ∧ tr = Yield <$> stamped request (clock w) (ticks w) vs
    ∧ length vs ≤ 1
    ∧ ticks w' = length vs + ticks w.
Proof.
  unfold round. destruct (pending w) as [|[delay event] rest]; [done|].
  destruct (Qle_bool 20 delay); [done|].
  destruct event as [message_str|e]; [|by destruct e].
  destruct (fragment_of py_str message_str) as [v|]; [|done].
  destruct (truthy v); intros [= <- <-].
  - exists (delay, Frame message_str), [v]. split_and!; try done; simpl; lia.
  - exists (delay, Frame message_str), []. split_and!; try done; simpl; lia.
Qed.

Lemma stamped_app request clock k vs vs' :
  stamped request clock k (vs ++ vs')
  = stamped request clock k vs ++ stamped request clock (length vs + k) vs'.
Proof.
  revert k. induction vs as [|v vs IH]; intros k; [done|].
  simpl. rewrite IH. by rewrite Nat.add_succ_r.
Qed.

(** The loop as a whole: the events it takes are a prefix of the
    pending ones, it yields at most one frame for each, stamps the
    frames with successive readings of the clock, touches neither the
    channel nor the endpoint, and logs one line when it ends by
    [break] and none when it raises. *)
Lemma receives_summary request w tr w' o :
  receives py_str request w tr w' o →
  ∃ taken vs,
    pending w = taken ++ pending w'
    ∧ yields tr = stamped request (clock w) (ticks w) vs
    ∧ length vs ≤ length taken
    ∧ ticks w' = length vs + ticks w
    ∧ clock w' = clock w
    ∧ connect_error w' = connect_error w
    ∧ send_error w' = send_error w
    ∧ channel_ops tr = []
    ∧ match o with
      | Ret _ => logs tr = [TimeoutWaiting] ∨ logs tr = [ClosedByServer]
      | Raise e => logs tr = [] ∧ caught_inside e = false
      | OutOfFuel => False
      end.
Proof.
  induction 1 as [w tr w' Hr|w tr w' e Hr|w tr w' tr' w'' o Hr Hrest IH].
  - destruct (round_world _ _ _ _ _ Hr) as (Hc & Hce & Hse & taken & Hp & _).
    destruct (round_break _ _ _ _ Hr) as [Htr Ht].
    exists taken, []. split_and!; try done; try (simpl; lia).
    + by destruct Htr as [-> | ->].
    + by destruct Htr as [-> | ->].
    + destruct Htr as [-> | ->]; auto.
  - destruct (round_world _ _ _ _ _ Hr) as (Hc & Hce & Hse & taken & Hp & _).
    destruct (round_raise _ _ _ _ _ Hr) as (-> & He & Ht).
    exists taken, []. split_and!; try done; simpl; lia.
  - destruct (round_world _ _ _ _ _ Hr) as (Hc & Hce & Hse & _).
    destruct (round_continue _ _ _ _ Hr) as (a & vs & Hp & -> & Hvs & Ht).
    destruct IH as (taken & vs' & Hp' & Hy & Hlen & Ht' & Hc' & Hce' & Hse' & Hops & Hlog).
    exists (a :: taken), (vs ++ vs').
    assert (∀ l, channel_ops (Yield <$> l) = []) as Hops0
      by (induction l; simpl; done).
    assert (∀ l, logs (Yield <$> l) = []) as Hlogs0
      by (induction l; simpl; done).
    split_and!.
    + by rewrite Hp, Hp'.
    + rewrite yields_app, yields_Yield, Hy, stamped_app, Hc, Ht. done.
    + rewrite length_app. simpl. lia.
    + rewrite length_app. lia.
    + congruence.
    + congruence.
    + congruence.
    + unfold channel_ops in *. by rewrite omap_app, Hops, (Hops0 _).
    + unfold logs in *. rewrite omap_app, (Hlogs0 _). by destruct o.
Qed.

Lemma channel_ops_app tr tr' :
  channel_ops (tr ++ tr') = channel_ops tr ++ channel_ops tr'.
Proof. apply omap_app. Qed.

Lemma logs_app tr tr' : logs (tr ++ tr') = logs tr ++ logs tr'.
Proof. apply omap_app. Qed.

(** How a run may end, as its second log line tells it. *)
Definition ending_line (w : world) (line : log_line) : Prop :=
  match line with
  | UserMessage _ => False
  | TimeoutWaiting | ClosedByServer =>
      connect_error w = None ∧ send_error w = None
  | ErrorConnecting e =>
      connect_error w = Some e
      ∨ (connect_error w = None ∧ send_error w = Some e)
      ∨ (connect_error w = None ∧ send_error w = None
         ∧ caught_inside e = false)
  end.

(** A whole run, in one statement. *)
Lemma stream_agent_responses_summary request w :
  ∃ tr w' taken vs line,
    stream_agent_responses py_str request w = (tr, tick w', Ret tt)
    ∧ pending w = taken ++ pending w'
    ∧ length vs ≤ length taken
    ∧ ticks w' = length vs + ticks w
    ∧ clock w' = clock w
    ∧ yields tr = stamped request (clock w) (ticks w) vs
                  ++ [done_chunk (clock w (length vs + ticks w)) request]
    ∧ channel_ops tr
      = match connect_error w with
        | Some _ => [Connect uri]
        | None => [Connect uri;
                   Send (envelope (first_user_message (messages request)));
                   Close]
        end
    ∧ logs tr = [UserMessage (first_user_message (messages request)); line]
    ∧ ending_line w line.
Proof.
  pose proof (stream_agent_responses_run py_str request w) as Hrun.
  simpl in Hrun.
  destruct (connect_error w) as [e|] eqn:Hconnect.
  { eexists _, w, [], [], (ErrorConnecting e). rewrite Hrun.
    split_and!; try done. simpl. auto. }
  destruct (send_error w) as [e|] eqn:Hsend.
  { eexists _, w, [], [], (ErrorConnecting e). rewrite Hrun.
    split_and!; try done. simpl. auto. }
  destruct Hrun as (tr & w' & o & Hrec & ->).
  apply receives_summary in Hrec
    as (taken & vs & Hp & Hy & Hlen & Ht & Hc & _ & _ & Hops & Hlog).
  assert (∃ line, logs (tr ++ epilogue request w' o) = [line]
                  ∧ ending_line w line) as (line & Hline & Hend).
  { rewrite logs_app. destruct o as [[]|e|]; [| |done].
    - destruct Hlog as [-> | ->]; eexists; simpl; (split; [done|]);
        simpl; by rewrite Hconnect, Hsend.
    - destruct Hlog as [-> He]. exists (ErrorConnecting e). split; [done|].
      simpl. rewrite Hconnect, Hsend. auto. }
  exists ([Log (UserMessage (first_user_message (messages request)));
           Connect uri;
           Send (envelope (first_user_message (messages request)))]
          ++ tr ++ epilogue request w' o), w', taken, vs, line.
  split_and!; try done.
  - change (yields (tr ++ epilogue request w' o)
            = stamped request (clock w) (ticks w) vs
              ++ [done_chunk (clock w (length vs + ticks w)) request]).
    by rewrite yields_app, yields_epilogue, Hy, Hc, Ht.
  - change (Connect uri
            :: Send (envelope (first_user_message (messages request)))
            :: channel_ops (tr ++ epilogue request w' o)
            = [Connect uri;
               Send (envelope (first_user_message (messages request)));
               Close]).
    rewrite channel_ops_app, Hops. by destruct o.
  - change (UserMessage (first_user_message (messages request))
            :: logs (tr ++ epilogue request w' o)
            = [UserMessage (first_user_message (messages request)); line]).
    by rewrite Hline.
Qed.

(** X1. Every run connects exactly once, to the one fixed address;
    there is no second attempt.  When the connection fails nothing is
    sent and nothing is closed; when it succeeds the envelope is sent
    once and the channel is closed once, in that order, however the
    run goes on. *)
Theorem channel_opened_once_closed_once request w :
  uri = "ws://localhost:3000/ws?conversation_id=test-conversation"
  ∧ channel_ops (stream_agent_responses py_str request w).1.1
    = match connect_error w with
      | Some _ => [Connect uri]
      | None => [Connect uri;
                 Send (envelope (first_user_message (messages request)));
                 Close]
      end.
Proof.
  split; [done|].
  destruct (stream_agent_responses_summary request w)
    as (tr & w' & taken & vs & line & -> & _ & _ & _ & _ & _ & Hops & _).
  exact Hops.
Qed.

(** X2. Once connected, every frame but the last is yielded while the
    channel is open: the trace splits at the one [Close] into a part
    that holds the send and all the content frames, and a part that
    yields the terminal frame alone and touches the channel no more. *)
Theorem frames_yielded_before_close request w :
  connect_error w = None →
  ∃ before behind final,
    (stream_agent_responses py_str request w).1.1 = before ++ (Close :: behind)
    ∧ (Close ∉ before)
    ∧ Forall (λ chunk, is_terminal chunk = false) (yields before)
    ∧ yields behind = [final]
    ∧ is_terminal final = true
    ∧ channel_ops behind = [].
Proof.
  intros Hconnect.
  pose proof (stream_agent_responses_run py_str request w) as Hrun.
  simpl in Hrun. rewrite Hconnect in Hrun.
  destruct (send_error w) as [e|].
  { rewrite Hrun.
    exists ([Log (UserMessage (first_user_message (messages request)));
             Connect uri;
             Send (envelope (first_user_message (messages request)))]).
    exists ([Log (ErrorConnecting e);
             Yield (done_chunk (clock w (ticks w)) request)]).
    exists (done_chunk (clock w (ticks w)) request).
    split_and!; try done. intros Hin. not_listed Hin. }
  destruct Hrun as (tr & w' & o & Hrec & ->).
  exists ([Log (UserMessage (first_user_message (messages request)));
           Connect uri;
           Send (envelope (first_user_message (messages request)))] ++ tr),
         (match o with
          | Raise e => [Log (ErrorConnecting e)]
          | _ => []
          end ++ [Yield (done_chunk (clock w' (ticks w')) request)]),
         (done_chunk (clock w' (ticks w')) request).
  split_and!.
  - done.
  - intros Hin. apply receives_quiet in Hrec.
    do 3 (apply elem_of_cons in Hin as [Hin|Hin]; [done|]).
    rewrite Forall_forall in Hrec. by apply Hrec in Hin.
  - change (Forall (λ chunk, is_terminal chunk = false) (yields tr)).
    apply receives_yields in Hrec. eapply Forall_impl; [exact Hrec|].
    apply loop_frame_not_terminal.
  - by destruct o.
  - done.
  - by destruct o.
Qed.

(** X3. When the envelope cannot be sent, nothing is received: the
    channel is closed, the exception is logged, the terminal frame is
    the whole stream, and every pending event is still pending when
    the generator returns. *)
Theorem send_failure_receives_nothing request w e :
  connect_error w = None →
  send_error w = Some e →
  stream_agent_responses py_str request w
  = ([Log (UserMessage (first_user_message (messages request)));
      Connect uri;
      Send (envelope (first_user_message (messages request)));
      Close;
      Log (ErrorConnecting e);
      Yield (done_chunk (clock w (ticks w)) request)],
     tick w, Ret tt)
  ∧ pending (stream_agent_responses py_str request w).1.2 = pending w.
Proof.
  intros Hconnect Hsend.
  pose proof (stream_agent_responses_run py_str request w) as Hrun.
  simpl in Hrun. rewrite Hconnect, Hsend in Hrun. by rewrite Hrun.
Qed.

Lemma stamped_lookup request clk k vs i chunk :
  stamped request clk k vs !! i = Some chunk →
  created_of chunk = Some (PInt (clk (i + k)))
  ∧ ∃ v, vs !! i = Some v ∧ chunk = content_frame (clk (i + k)) request v.
Proof.
  revert k i. induction vs as [|v vs IH]; intros k [|i]; simpl; try done.
  - intros [= <-]. split; [done|]. by exists v.
  - intros Hi. apply IH in Hi. by rewrite Nat.add_succ_r in Hi.
Qed.

(** X4. The clock is read once for each frame and never otherwise:
    the run leaves it advanced by the number of frames, and the
    [created] field of the [i]-th frame of the stream is the [i]-th
    reading taken. *)
Theorem one_clock_reading_per_frame request w :
  ticks (stream_agent_responses py_str request w).1.2
  = length (yields (stream_agent_responses py_str request w).1.1) + ticks w
  ∧ ∀ i chunk,
      yields (stream_agent_responses py_str request w).1.1 !! i = Some chunk →
      created_of chunk = Some (PInt (clock w (i + ticks w))).
Proof.
  destruct (stream_agent_responses_summary request w)
    as (tr & w' & taken & vs & line & -> & _ & _ & Ht & _ & Hy & _).
  simpl. rewrite Hy. split.
  - rewrite length_app, stamped_length. simpl. lia.
  - intros i chunk Hi. apply lookup_app_Some in Hi as [Hi|[Hge Hi]].
    + by apply stamped_lookup in Hi as [Hi _].
    + rewrite stamped_length in Hge, Hi.
      apply list_lookup_singleton_Some in Hi as [Hi <-].
      replace i with (length vs) by lia. done.
Qed.

(** X5. Every frame of a stream, the terminal one too, carries the
    same [id] and [object], the [model] of the request, and a list of
    [choices] with the single entry of index 0. *)
Theorem frame_header request w chunk :
  chunk ∈ yields (stream_agent_responses py_str request w).1.1 →
  field_of "id" chunk = Some (PStr "chatcmpl-123")
  ∧ field_of "object" chunk = Some (PStr "chat.completion.chunk")
  ∧ field_of "model" chunk = Some (PStr (model request))
  ∧ ∃ choice, field_of "choices" chunk = Some (PList [PDict choice])
              ∧ choice !! "index" = Some (PInt 0).
Proof.
  intros Hin.
  destruct (stream_agent_responses_yields py_str request w)
    as (tr & w' & frames & Hrun & Hyields & Hframes).
  rewrite Hrun in Hin. simpl in Hin. rewrite Hyields in Hin.
  apply elem_of_app in Hin as [Hin|Hin].
  - rewrite Forall_forall in Hframes.
    destruct (Hframes _ Hin) as (now & delay & m & v & -> & _).
    split_and!; try done. by eexists.
  - apply list_elem_of_singleton in Hin as ->.
    split_and!; try done. by eexists.
Qed.

(** X6. A run prints two lines, no more: first the user message, then
    how the session ended.  A timeout and a close by the agent have
    lines of their own and are never printed as an error; the error
    line names the exception of [connect], of [send], or one that the
    loop does not catch. *)
Theorem two_log_lines request w :
  ∃ line,
    logs (stream_agent_responses py_str request w).1.1
    = [UserMessage (first_user_message (messages request)); line]
    ∧ ending_line w line.
Proof.
  destruct (stream_agent_responses_summary request w)
    as (tr & w' & taken & vs & line & -> & _ & _ & _ & _ & _ & _ & Hl & He).
  by exists line.
Qed.

(** X7. The loop takes the pending events in order, from the front,
    and yields at most one frame for each event taken: the events
    left when the generator returns are a suffix of the pending ones,
    and the stream is no longer than the events taken plus the
    terminal frame. *)
Theorem at_most_one_frame_per_event request w :
  ∃ taken,
    pending w = taken ++ pending (stream_agent_responses py_str request w).1.2
    ∧ length (yields (stream_agent_responses py_str request w).1.1)
      ≤ S (length taken).
Proof.
  destruct (stream_agent_responses_summary request w)
    as (tr & w' & taken & vs & line & -> & Hp & Hlen & _ & _ & Hy & _).
  exists taken. simpl. split; [done|].
  rewrite Hy, length_app, stamped_length. simpl. lia.
Qed.

End Lifecycle.

(** * Messages that are not what the bridge expects *)

Lemma prefix_append needle hay :
  String.prefix needle hay = true ↔ ∃ rest, hay = needle +:+ rest.
Proof.
  revert hay. induction needle as [|a needle IH]; intros hay.
  { split; [|by destruct hay]. intros _. by exists hay. }
  destruct hay as [|b hay]; simpl.
  { split; [done|]. by intros [rest Hrest]. }
  destruct (ascii_dec a b) as [->|Hne].
  - rewrite IH. split; intros [rest Hrest]; exists rest.
    + by rewrite Hrest.
    + by injection Hrest.
  - split; [done|]. intros [rest Hrest]. by injection Hrest.
Qed.

Lemma is_substring_unfold needle hay :
  is_substring needle hay
  = String.prefix needle hay
    || match hay with
       | EmptyString => false
       | String _ rest => is_substring needle rest
       end.
Proof. by destruct hay. Qed.

(** [is_substring] is substring search, as Python's [in] on two
    strings. *)
Lemma is_substring_occurs needle hay :
  is_substring needle hay = true ↔ occurs_in needle hay.
Proof.
  unfold occurs_in. induction hay as [|b hay IH];
    rewrite is_substring_unfold, orb_true_iff, prefix_append.
  - split.
    + intros [[rest Hrest]|?]; [|done]. by exists EmptyString, rest.
    + intros ([|c before] & rest & Hrest); [|done]. left. by exists rest.
  - rewrite IH. split.
    + intros [[rest Hrest]|(before & rest & Hrest)].
      * by exists EmptyString, rest.
      * exists (String b before), rest. simpl. by rewrite Hrest.
    + intros ([|c before] & rest & Hrest).
      * left. by exists rest.
      * right. injection Hrest as -> Hrest. by exists before, rest.
Qed.

Lemma existsb_py_eq_str key items :
  existsb (λ v, py_eq_str v key) items = true ↔ PStr key ∈ items.
Proof.
  rewrite existsb_exists. split.
  - intros (v & Hin & Heq). apply list_elem_of_In in Hin.
    destruct v; try done. simpl in Heq.
    apply bool_decide_eq_true in Heq. by subst.
  - intros Hin. exists (PStr key). split; [by apply list_elem_of_In|].
    simpl. by apply bool_decide_eq_true.
Qed.

Section Messages.

Variable py_str : pyval → string.

(** [key in message] holds of a message that is not a dict. *)
Definition mentions (key : string) (message : pyval) : Prop :=
  match message with
  | PStr s => occurs_in key s
  | PList items => PStr key ∈ items
  | _ => False
  end.

(** X8. A message that decodes to something other than a JSON object
    is skipped only when it is a string in which neither
    "observation" nor "action" occurs, or an array none of whose items
    is one of these two strings.  Any other such message raises
    [TypeError]: a string or array that mentions one of the two words
    (the subscript by a string fails), and every number, boolean and
    [null] (the [in] test itself fails). *)
Theorem message_not_an_object message :
  (∀ d, message ≠ PDict d) →
  match message with
  | PStr _ | PList _ =>
      (mentions "observation" message ∨ mentions "action" message →
       content_chunk_of py_str message = Err TypeError)
      ∧ (¬ mentions "observation" message → ¬ mentions "action" message →
         content_chunk_of py_str message = Ok (PStr EmptyString))
  | _ => content_chunk_of py_str message = Err TypeError
  end.
Proof.
  intros Hnot. destruct message as [| | | |s|items|d]; try done.
  - unfold content_chunk_of, has_tag, py_and. simpl.
    pose proof (is_substring_occurs "observation" s) as Hobs.
    pose proof (is_substring_occurs "action" s) as Hact.
    destruct (is_substring "observation" s); simpl.
    { split; [done|]. intros Hn. by destruct Hn; apply Hobs. }
    destruct (is_substring "action" s); simpl.
    { split; [done|]. intros _ Hn. by destruct Hn; apply Hact. }
    split; [|done]. intros [H|H]; [by apply Hobs in H|by apply Hact in H].
  - unfold content_chunk_of, has_tag, py_and. simpl.
    pose proof (existsb_py_eq_str "observation" items) as Hobs.
    pose proof (existsb_py_eq_str "action" items) as Hact.
    destruct (existsb _ items); simpl.
    { split; [done|]. intros Hn. by destruct Hn; apply Hobs. }
    destruct (existsb _ items); simpl.
    { split; [done|]. intros _ Hn. by destruct Hn; apply Hact. }
    split; [|done]. intros [H|H]; [by apply Hobs in H|by apply Hact in H].
  - by destruct (Hnot d).
Qed.

(** A [CmdRunAction] that is not also an [AgentThinkObservation]. *)
Definition cmd_run_only (d : gmap string pyval) : Prop :=
  d !! "action" = Some (PStr "CmdRunAction")
  ∧ d !! "observation" ≠ Some (PStr "AgentThinkObservation").

Lemma content_chunk_of_cmd_run d :
  cmd_run_only d →
  content_chunk_of py_str (PDict d)
  = (args ← py_getitem (PDict d) "args";
     command ← py_getitem args "command";
     mret (PStr (running_command (py_format py_str command)))).
Proof.
  intros [Hact Hobs]. rewrite content_chunk_of_dict.
  apply tag_is_true in Hact. apply tag_is_false in Hobs.
  rewrite Hobs, Hact.
  destruct (py_getitem (PDict d) "args") as [args|]; [|done]. simpl.
  by destruct (py_getitem args "command").
Qed.

(** X9. A [CmdRunAction] is never dropped in silence.  Whenever it
    translates, its content chunk is a string that is not empty,
    whatever the command is (the empty string, a number, a list), so
    the round that receives it yields a frame. *)
Theorem cmd_run_always_yields request w d delay rest v :
  cmd_run_only d →
  content_chunk_of py_str (PDict d) = Ok v →
  pending w = (delay, Frame (Json (PDict d))) :: rest →
  (delay < 20)%Q →
  (∃ command, v = PStr (running_command (py_format py_str command)))
  ∧ truthy v = true
  ∧ receive_one py_str request w
    = ([Yield (content_frame (clock w (ticks w)) request v)],
       tick (set_pending rest w), Ret Continue).
Proof.
  intros Hcmd Hv Hp Hd.
  assert (∃ command, v = PStr (running_command (py_format py_str command)))
    as [command ->].
  { rewrite content_chunk_of_cmd_run in Hv by done.
    destruct (py_getitem (PDict d) "args") as [args|]; [|done]. simpl in Hv.
    destruct (py_getitem args "command") as [command|]; [|done].
    injection Hv as <-. by exists command. }
  split; [by exists command|]. split; [done|].
  by rewrite (receive_one_frame py_str request w delay (Json (PDict d)) rest
                (PStr (running_command (py_format py_str command)))).
Qed.

(** X10. A [CmdRunAction] without the fields it is read from raises:
    [KeyError] on [args] when the message has no [args], [TypeError]
    when [args] is not a JSON object, and [KeyError] on [command] when
    [args] has no [command]. *)
Theorem cmd_run_missing_fields d :
  cmd_run_only d →
  (d !! "args" = None →
   content_chunk_of py_str (PDict d) = Err (KeyError "args"))
  ∧ (∀ args, d !! "args" = Some args → (∀ a, args ≠ PDict a) →
     content_chunk_of py_str (PDict d) = Err TypeError)
  ∧ (∀ a, d !! "args" = Some (PDict a) → a !! "command" = None →
     content_chunk_of py_str (PDict d) = Err (KeyError "command")).
Proof.
  intros Hcmd. rewrite content_chunk_of_cmd_run by done. split_and!.
  - intros Hargs. simpl. by rewrite Hargs.
  - intros args Hargs Hnot. simpl. rewrite Hargs. simpl.
    destruct args as [| | | | | |a]; try done. by destruct (Hnot a).
  - intros a Hargs Hc. simpl. rewrite Hargs. simpl. by rewrite Hc.
Qed.

End Messages.

(** * How a session ends *)

Section Endings.

Variable py_str : pyval → string.

(** The run of a connected session whose loop goes past [pre] and
    then stops with the trace [last] and the outcome [o], leaving
    [rest] pending. *)
Lemma run_through request w pre l last w' o :
  connect_error w = None →
  send_error w = None →
  pending w = pre ++ l →
  Forall (λ a, goes_on py_str a = true) pre →
  (∀ tr w'' o',
     receives py_str request (after l (length (omap (kept py_str) pre)) w)
       tr w'' o' →
     tr = last ∧ w'' = w' ∧ o' = o) →
  stream_agent_responses py_str request w
  = ([Log (UserMessage (first_user_message (messages request)));
      Connect uri;
      Send (envelope (first_user_message (messages request)))]
     ++ (Yield <$> stamped request (clock w) (ticks w) (omap (kept py_str) pre))
     ++ last ++ epilogue request w' o,
     tick w', Ret tt).
Proof.
  intros Hconnect Hsend Hp Hpre Hlast.
  pose proof (stream_agent_responses_run py_str request w) as Hrun.
  simpl in Hrun. rewrite Hconnect, Hsend in Hrun.
  destruct Hrun as (tr & w1 & o1 & Hrec & ->).
  eapply receives_through in Hrec as (tr2 & -> & Hrec); [|done..].
  apply Hlast in Hrec as (-> & -> & ->). by rewrite <- app_assoc.
Qed.

(** X11. Idle timeout.  When the loop has gone past the events [pre]
    and then nothing arrives within 20 seconds of a receive, the loop
    prints the timeout line and ends: the channel is closed and the
    terminal frame follows the frames of [pre].  No error is logged,
    and an event that comes too late is left pending. *)
Theorem idle_timeout_ends_stream request w pre rest :
  connect_error w = None →
  send_error w = None →
  pending w = pre ++ rest →
  Forall (λ a, goes_on py_str a = true) pre →
  silent rest →
  let n := length (omap (kept py_str) pre) in
  stream_agent_responses py_str request w
  = ([Log (UserMessage (first_user_message (messages request)));
      Connect uri;
      Send (envelope (first_user_message (messages request)))]
     ++ (Yield <$> stamped request (clock w) (ticks w) (omap (kept py_str) pre))
     ++ [Log TimeoutWaiting; Close;
         Yield (done_chunk (clock w (n + ticks w)) request)],
     tick (after rest n w), Ret tt).
Proof.
  intros Hconnect Hsend Hp Hpre Hsilent n.
  rewrite (run_through request w pre rest [Log TimeoutWaiting]
             (after rest n w) (Ret tt)); try done.
  intros tr w'' o' Hrec. apply receives_stop in Hrec. simpl in Hrec.
  unfold silent in Hsilent. destruct rest as [|[delay event] rest]; [done|].
  apply Qle_bool_iff in Hsilent. by rewrite Hsilent in Hrec.
Qed.

(** X12. Remote close.  When [recv] raises [ConnectionClosed] after
    the events [pre], the loop prints the line for a closed
    connection and ends: the channel is released and the terminal
    frame follows the frames of [pre].  The close is not logged as an
    error, and what was to come after it is never received. *)
Theorem remote_close_ends_stream request w pre delay rest :
  connect_error w = None →
  send_error w = None →
  pending w = pre ++ (delay, RecvRaises ConnectionClosed) :: rest →
  Forall (λ a, goes_on py_str a = true) pre →
  (delay < 20)%Q →
  let n := length (omap (kept py_str) pre) in
  stream_agent_responses py_str request w
  = ([Log (UserMessage (first_user_message (messages request)));
      Connect uri;
      Send (envelope (first_user_message (messages request)))]
     ++ (Yield <$> stamped request (clock w) (ticks w) (omap (kept py_str) pre))
     ++ [Log ClosedByServer; Close;
         Yield (done_chunk (clock w (n + ticks w)) request)],
     tick (after rest n w), Ret tt).
Proof.
  intros Hconnect Hsend Hp Hpre Hd n.
  rewrite (run_through request w pre
             ((delay, RecvRaises ConnectionClosed) :: rest)
             [Log ClosedByServer] (after rest n w) (Ret tt)); try done.
  intros tr w'' o' Hrec. apply receives_stop in Hrec. simpl in Hrec.
  by rewrite (in_time _ Hd) in Hrec.
Qed.

(** X13. Any other exception of [recv] leaves the loop: the channel
    is closed, the outer handler logs the exception as an error of
    the connection, and the terminal frame follows the frames of
    [pre]. *)
Theorem recv_error_ends_stream request w pre delay e rest :
  connect_error w = None →
  send_error w = None →
  pending w = pre ++ (delay, RecvRaises e) :: rest →
  Forall (λ a, goes_on py_str a = true) pre →
  (delay < 20)%Q →
  caught_inside e = false →
  let n := length (omap (kept py_str) pre) in
  stream_agent_responses py_str request w
  = ([Log (UserMessage (first_user_message (messages request)));
      Connect uri;
      Send (envelope (first_user_message (messages request)))]
     ++ (Yield <$> stamped request (clock w) (ticks w) (omap (kept py_str) pre))
     ++ [Close; Log (ErrorConnecting e);
         Yield (done_chunk (clock w (n + ticks w)) request)],
     tick (after rest n w), Ret tt).
Proof.
  intros Hconnect Hsend Hp Hpre Hd He n.
  rewrite (run_through request w pre ((delay, RecvRaises e) :: rest)
             [] (after rest n w) (Raise e)); try done.
  intros tr w'' o' Hrec. apply receives_stop in Hrec. simpl in Hrec.
  rewrite (in_time _ Hd) in Hrec. by destruct e.
Qed.

End Endings.

(** * What the stream depends on *)

(** Two worlds that differ at most in what is pending. *)
Definition same_host (w1 w2 : world) : Prop :=
  clock w1 = clock w2 ∧ ticks w1 = ticks w2
  ∧ connect_error w1 = connect_error w2 ∧ send_error w1 = send_error w2.

Section Dependence.

Variable py_str : pyval → string.

Lemma receives_fun request w tr1 w1 o1 tr2 w2 o2 :
  receives py_str request w tr1 w1 o1 →
  receives py_str request w tr2 w2 o2 →
  tr1 = tr2 ∧ w1 = w2 ∧ o1 = o2.
Proof.
  intros H1. revert tr2 w2 o2.
  induction H1 as [w tr w' Hr|w tr w' e Hr|w tr w' tr' w'' o Hr Hrest IH];
    intros tr2 w2 o2 H2; apply receives_inv in H2; rewrite Hr in H2.
  - by destruct H2 as (-> & -> & ->).
  - by destruct H2 as (-> & -> & ->).
  - destruct H2 as (tr3 & -> & H2). by apply IH in H2 as (-> & -> & ->).
Qed.

(** A round sees the first pending event, the clock and nothing
    else. *)
Lemma round_same_head request w1 w2 tr w1' o :
  same_host w1 w2 →
  match pending w1, pending w2 with
  | [], [] => True
  | a1 :: _, a2 :: _ => a1 = a2
  | _, _ => False
  end →
  round py_str request w1 = (tr, w1', o) →
  ∃ w2', round py_str request w2 = (tr, w2', o)
         ∧ same_host w1' w2'
         ∧ (o = Ret Continue →
            pending w1' = tail (pending w1) ∧ pending w2' = tail (pending w2)).
Proof.
  intros (Hc & Ht & Hce & Hse) Hhead. unfold round, same_host.
  destruct (pending w1) as [|[delay event] rest1],
           (pending w2) as [|a2 rest2]; try done.
  { intros [= <- <- <-]. by exists w2. }
  subst a2. destruct (Qle_bool 20 delay).
  { intros [= <- <- <-]. by exists w2. }
  destruct event as [message_str|e].
  - destruct (fragment_of py_str message_str) as [v|e].
    + destruct (truthy v); intros [= <- <- <-].
      * exists (tick (set_pending rest2 w2)). rewrite Hc, Ht.
        split_and!; try done. simpl. by rewrite Ht.
      * exists (set_pending rest2 w2). by split_and!.
    + intros [= <- <- <-]. exists (set_pending rest2 w2). by split_and!.
  - destruct e; intros [= <- <- <-]; exists (set_pending rest2 w2);
      by split_and!.
Qed.

Lemma round_continue_goes_on request w tr w' :
  round py_str request w = (tr, w', Ret Continue) →
  ∃ a rest, pending w = a :: rest ∧ goes_on py_str a = true.
Proof.
  unfold round, goes_on.
  destruct (pending w) as [|[delay event] rest]; [done|].
  destruct (Qle_bool 20 delay) eqn:Hd; [done|].
  intros Hr. exists (delay, event), rest. split; [done|]. simpl. rewrite Hd.
  destruct event as [message_str|e]; [|by destruct e].
  by destruct (fragment_of py_str message_str).
Qed.

Lemma receives_cut request w1 tr w1' o :
  receives py_str request w1 tr w1' o →
  ∀ w2 pre a rest rest',
    same_host w1 w2 →
    pending w1 = pre ++ a :: rest →
    pending w2 = pre ++ a :: rest' →
    goes_on py_str a = false →
    ∃ w2', receives py_str request w2 tr w2' o ∧ same_host w1' w2'.
Proof.
  induction 1 as [w tr w' Hr|w tr w' e Hr|w tr w' tr' w'' o Hr Hrest IH];
    intros w2 pre a rest rest' Hhost Hp1 Hp2 Ha.
  - eapply (round_same_head _ _ w2) in Hr as (w2' & Hr2 & Hhost' & _);
      [|done|by rewrite Hp1, Hp2; destruct pre].
    exists w2'. split; [by apply receives_break|done].
  - eapply (round_same_head _ _ w2) in Hr as (w2' & Hr2 & Hhost' & _);
      [|done|by rewrite Hp1, Hp2; destruct pre].
    exists w2'. split; [by apply receives_raise|done].
  - pose proof (round_continue_goes_on _ _ _ _ Hr) as (a0 & rest0 & Hp0 & Hgo).
    destruct pre as [|p pre].
    { rewrite Hp1 in Hp0. injection Hp0 as <- _. congruence. }
    pose proof Hr as Hr1.
    eapply (round_same_head _ _ w2) in Hr as (w2' & Hr2 & Hhost' & Htail);
      [|done|by rewrite Hp1, Hp2].
    destruct Htail as [Ht1 Ht2]; [done|].
    rewrite Hp1 in Ht1. rewrite Hp2 in Ht2. simpl in Ht1, Ht2.
    destruct (IH w2' pre a rest rest' Hhost' Ht1 Ht2 Ha) as (w2'' & Hrec2 & Hh).
    exists w2''. split; [|done]. by eapply receives_continue.
Qed.

(** X14. The bridge does not look ahead: the trace of a run, and so
    the stream, is the same whatever comes after the first event that
    ends the loop (an event that is late, an exception of [recv], a
    message that does not decode or translate). *)
Theorem no_look_ahead request w pre a rest rest' :
  goes_on py_str a = false →
  (stream_agent_responses py_str request (set_pending (pre ++ a :: rest) w)).1.1
  = (stream_agent_responses py_str request (set_pending (pre ++ a :: rest') w)).1.1.
Proof.
  intros Ha.
  pose proof (stream_agent_responses_run py_str request
                (set_pending (pre ++ a :: rest) w)) as H1.
  pose proof (stream_agent_responses_run py_str request
                (set_pending (pre ++ a :: rest') w)) as H2.
  simpl in H1, H2.
  destruct (connect_error w) as [e|]; [by rewrite H1, H2|].
  destruct (send_error w) as [e|]; [by rewrite H1, H2|].
  destruct H1 as (tr1 & w1 & o1 & Hrec1 & ->).
  destruct H2 as (tr2 & w2 & o2 & Hrec2 & ->).
  eapply (receives_cut _ _ _ _ _ Hrec1 (set_pending (pre ++ a :: rest') w))
    in Ha as (w2' & Hrec2' & Hc & Ht & _); [|done..].
  destruct (receives_fun _ _ _ _ _ _ _ _ Hrec2 Hrec2') as (-> & -> & ->).
  simpl. unfold epilogue. by rewrite Hc, Ht.
Qed.

End Dependence.

(** X15. Only the first message with the role "user" counts: what
    comes after it in the request, later user messages too, does not
    change the text that is forwarded; messages before it that have
    another role are passed over. *)
Theorem later_messages_ignored (l l' : list ChatMessage) :
  (Exists (λ m, role m = "user") l →
   first_user_message (l ++ l') = first_user_message l)
  ∧ (Forall (λ m, role m ≠ "user") l →
     first_user_message (l ++ l') = first_user_message l').
Proof.
  split.
  - induction 1 as [m l Hm|m l _ IH]; simpl.
    + by rewrite bool_decide_eq_true_2.
    + by rewrite IH.
  - induction 1 as [|m l Hm _ IH]; simpl; [done|].
    by rewrite bool_decide_eq_false_2.
Qed.

(** ** Witnesses of the further properties *)

(** An agent that accepts the connection and then fails the send. *)
Definition deaf : world :=
  {| connect_error := None; send_error := Some ConnectionClosed;
     pending := [at_once (think (PStr "late"))];
     clock := λ k, (1700000000 + Z.of_nat k)%Z; ticks := 0 |}.

Lemma frames_yielded_before_close_witness :
  let w := agent [at_once (think (PStr "a"))] in
  connect_error w = None
  ∧ ∃ before behind final,
      (stream_agent_responses no_str request_hi w).1.1
      = before ++ (Close :: behind)
      ∧ (Close ∉ before)
      ∧ Forall (λ chunk, is_terminal chunk = false) (yields before)
      ∧ yields behind = [final]
      ∧ is_terminal final = true
      ∧ channel_ops behind = [].
Proof.
  intros w. split; [reflexivity|].
  exact (frames_yielded_before_close no_str request_hi w eq_refl).
Defined.

Lemma send_failure_receives_nothing_witness :
  (connect_error deaf = None ∧ send_error deaf = Some ConnectionClosed)
  ∧ stream_agent_responses no_str request_hi deaf
    = ([Log (UserMessage (first_user_message (messages request_hi)));
        Connect uri;
        Send (envelope (first_user_message (messages request_hi)));
        Close;
        Log (ErrorConnecting ConnectionClosed);
        Yield (done_chunk (clock deaf (ticks deaf)) request_hi)],
       tick deaf, Ret tt)
  ∧ pending (stream_agent_responses no_str request_hi deaf).1.2 = pending deaf.
Proof.
  split; [by split|].
  exact (send_failure_receives_nothing no_str request_hi deaf ConnectionClosed
           eq_refl eq_refl).
Defined.

Lemma frame_header_witness :
  let chunk := done_chunk 1700000000 request_hi in
  chunk ∈ yields (stream_agent_responses no_str request_hi (agent [])).1.1
  ∧ field_of "id" chunk = Some (PStr "chatcmpl-123")
  ∧ field_of "object" chunk = Some (PStr "chat.completion.chunk")
  ∧ field_of "model" chunk = Some (PStr (model request_hi))
  ∧ ∃ choice, field_of "choices" chunk = Some (PList [PDict choice])
              ∧ choice !! "index" = Some (PInt 0).
Proof.
  intros chunk.
  assert (chunk ∈ yields (stream_agent_responses no_str request_hi (agent [])).1.1)
    as Hin.
  { assert (yields (stream_agent_responses no_str request_hi (agent [])).1.1
            = [chunk]) as -> by (vm_compute; reflexivity).
    apply list_elem_of_here. }
  split; [exact Hin|].
  exact (frame_header no_str request_hi (agent []) chunk Hin).
Defined.

Lemma message_not_an_object_witness :
  (∀ d, PStr "an observation" ≠ PDict d)
  ∧ (mentions "observation" (PStr "an observation")
     ∨ mentions "action" (PStr "an observation") →
     content_chunk_of no_str (PStr "an observation") = Err TypeError)
  ∧ (¬ mentions "observation" (PStr "an observation") →
     ¬ mentions "action" (PStr "an observation") →
     content_chunk_of no_str (PStr "an observation") = Ok (PStr EmptyString)).
Proof.
  assert (∀ d, PStr "an observation" ≠ PDict d) as Hnot by done.
  split; [exact Hnot|].
  exact (message_not_an_object no_str (PStr "an observation") Hnot).
Defined.

Lemma cmd_run_always_yields_witness :
  let w := agent [at_once (cmd_run EmptyString)] in
  let v := PStr (running_command EmptyString) in
  (cmd_run_only (cmd_run EmptyString)
   ∧ content_chunk_of no_str (PDict (cmd_run EmptyString)) = Ok v
   ∧ (1 < 20)%Q)
  ∧ (∃ command, v = PStr (running_command (py_format no_str command)))
  ∧ truthy v = true
  ∧ receive_one no_str request_hi w
    = ([Yield (content_frame (clock w (ticks w)) request_hi v)],
       tick (set_pending [] w), Ret Continue).
Proof.
  intros w v.
  assert (cmd_run_only (cmd_run EmptyString)) as Hcmd by (by split).
  split; [by split_and!|].
  exact (cmd_run_always_yields no_str request_hi w (cmd_run EmptyString)
           1%Q [] v Hcmd eq_refl eq_refl eq_refl).
Defined.

Lemma cmd_run_missing_fields_witness :
  let d : gmap string pyval := {[ "action" := PStr "CmdRunAction" ]} in
  cmd_run_only d
  ∧ (d !! "args" = None →
     content_chunk_of no_str (PDict d) = Err (KeyError "args"))
  ∧ (∀ args, d !! "args" = Some args → (∀ a, args ≠ PDict a) →
     content_chunk_of no_str (PDict d) = Err TypeError)
  ∧ (∀ a, d !! "args" = Some (PDict a) → a !! "command" = None →
     content_chunk_of no_str (PDict d) = Err (KeyError "command")).
Proof.
  intros d.
  assert (cmd_run_only d) as Hcmd by (by split).
  split; [exact Hcmd|].
  exact (cmd_run_missing_fields no_str d Hcmd).
Defined.

Lemma idle_timeout_ends_stream_witness :
  let pre := [at_once (think (PStr "a"))] in
  let rest := [(30%Q, Frame (Json (PDict (think (PStr "b")))))] in
  let w := agent (pre ++ rest) in
  let n := length (omap (kept no_str) pre) in
  (Forall (λ a, goes_on no_str a = true) pre ∧ silent rest)
  ∧ stream_agent_responses no_str request_hi w
    = ([Log (UserMessage (first_user_message (messages request_hi)));
        Connect uri;
        Send (envelope (first_user_message (messages request_hi)))]
       ++ (Yield <$> stamped request_hi (clock w) (ticks w)
                       (omap (kept no_str) pre))
       ++ [Log TimeoutWaiting; Close;
           Yield (done_chunk (clock w (n + ticks w)) request_hi)],
       tick (after rest n w), Ret tt).
Proof.
  intros pre rest w n.
  assert (Forall (λ a, goes_on no_str a = true) pre) as Hpre
    by (repeat constructor).
  assert (silent rest) as Hsilent by (simpl; discriminate).
  split; [by split|].
  exact (idle_timeout_ends_stream no_str request_hi w pre rest
           eq_refl eq_refl eq_refl Hpre Hsilent).
Defined.

Lemma remote_close_ends_stream_witness :
  let pre := [at_once (think (PStr "a"))] in
  let rest := [at_once (think (PStr "b"))] in
  let w := agent (pre ++ (1%Q, RecvRaises ConnectionClosed) :: rest) in
  let n := length (omap (kept no_str) pre) in
  (Forall (λ a, goes_on no_str a = true) pre ∧ (1 < 20)%Q)
  ∧ stream_agent_responses no_str request_hi w
    = ([Log (UserMessage (first_user_message (messages request_hi)));
        Connect uri;
        Send (envelope (first_user_message (messages request_hi)))]
       ++ (Yield <$> stamped request_hi (clock w) (ticks w)
                       (omap (kept no_str) pre))
       ++ [Log ClosedByServer; Close;
           Yield (done_chunk (clock w (n + ticks w)) request_hi)],
       tick (after rest n w), Ret tt).
Proof.
  intros pre rest w n.
  assert (Forall (λ a, goes_on no_str a = true) pre) as Hpre
    by (repeat constructor).
  split; [by split|].
  exact (remote_close_ends_stream no_str request_hi w pre 1%Q rest
           eq_refl eq_refl eq_refl Hpre eq_refl).
Defined.

Lemma recv_error_ends_stream_witness :
  let pre := [at_once (think (PStr "a"))] in
  let rest := [at_once (think (PStr "b"))] in
  let e := OtherError "OSError" in
  let w := agent (pre ++ (1%Q, RecvRaises e) :: rest) in
  let n := length (omap (kept no_str) pre) in
  (Forall (λ a, goes_on no_str a = true) pre ∧ (1 < 20)%Q
   ∧ caught_inside e = false)
  ∧ stream_agent_responses no_str request_hi w
    = ([Log (UserMessage (first_user_message (messages request_hi)));
        Connect uri;
        Send (envelope (first_user_message (messages request_hi)))]
       ++ (Yield <$> stamped request_hi (clock w) (ticks w)
                       (omap (kept no_str) pre))
       ++ [Close; Log (ErrorConnecting e);
           Yield (done_chunk (clock w (n + ticks w)) request_hi)],
       tick (after rest n w), Ret tt).
Proof.
  intros pre rest e w n.
  assert (Forall (λ a, goes_on no_str a = true) pre) as Hpre
    by (repeat constructor).
  split; [by split_and!|].
  exact (recv_error_ends_stream no_str request_hi w pre 1%Q e rest
           eq_refl eq_refl eq_refl Hpre eq_refl eq_refl).
Defined.

Lemma no_look_ahead_witness :
  let pre := [at_once (think (PStr "a"))] in
  let a := (1%Q, Frame (NotJson "ping")) in
  let rest' := [at_once (think (PStr "b"))] in
  goes_on no_str a = false
  ∧ (stream_agent_responses no_str request_hi
       (set_pending (pre ++ a :: []) (agent []))).1.1
    = (stream_agent_responses no_str request_hi
         (set_pending (pre ++ a :: rest') (agent []))).1.1.
Proof.
  intros pre a rest'. split; [reflexivity|].
  exact (no_look_ahead no_str request_hi (agent []) pre a [] rest' eq_refl).
Defined.

(** * The editor extension installer ([openhands/cli/vscode_extension.py])

    The installer looks at the environment, at a flag file under the
    home directory and at what the editor's command line answers.  The
    machine it runs on is a record of these; what it does is a trace of
    effects. *)

Module Installer.

(** An exception, with the text [str(e)] gives.  The file system
    raises [OSError]; [Path.home()] raises [RuntimeError]; running a
    process may raise anything. *)
Inductive exn : Type :=
| OSError (text : string)
| RuntimeError (text : string)
| OtherException (text : string).

Definition str (e : exn) : string :=
  match e with
  | OSError text | RuntimeError text | OtherException text => text
  end.

(** [isinstance(e, OSError)]. *)
Definition is_os_error (e : exn) : bool :=
  match e with
  | OSError _ => true
  | _ => false
  end.

(** What [subprocess.run(argv, capture_output=True, text=True,
    check=False)] ends with. *)
Inductive process : Type :=
| RunRaises (e : exn)
| CompletedProcess (returncode : Z) (stdout stderr : string).

(** The bundled [.vsix] as [importlib.resources] finds it: the lookup
    raises, or gives a path that exists or not. *)
Inductive bundle : Type :=
| BundleRaises (e : exn)
| BundleAt (vsix_path : string) (there : bool).

(** The machine.  A path is the list of names below the home
    directory; [files] are the flag files that exist.  The three
    [_error] fields say whether [mkdir], [exists] and [touch] raise. *)
Record machine : Type := {
  environ : gmap string string;
  home : option exn;
  mkdir_error : option string;
  exists_error : option string;
  touch_error : option string;
  files : gset (list string);
  run : list string → process;
  vsix : bundle;
}.

Definition add_file (p : list string) (m : machine) : machine :=
  {| environ := environ m; home := home m; mkdir_error := mkdir_error m;
     exists_error := exists_error m; touch_error := touch_error m;
     files := {[ p ]} ∪ files m; run := run m; vsix := vsix m |}.

Inductive effect : Type :=
| Stdout (line : string)            (* print *)
| LogDebug (line : string)          (* logger.debug *)
| LogWarning (line : string)        (* logger.warning *)
| Mkdir (p : list string)
| Touch (p : list string)
| Subprocess (argv : list string).

(** How a call ends. *)
Inductive ended (A : Type) : Type :=
| Returns (a : A)
| Raises (e : exn).
Arguments Returns {A} a.
Arguments Raises {A} e.

Definition io (A : Type) : Type := machine → list effect * machine * ended A.

#[global] Instance io_ret : MRet io := λ A a m, ([], m, Returns a).

#[global] Instance io_bind : MBind io := λ A B f c m,
  match c m with
  | (tr, m', Returns a) => let '(tr', m'', r) := f a m' in (tr ++ tr', m'', r)
  | (tr, m', Raises e) => (tr, m', Raises e)
  end.

Definition do (e : effect) : io unit := λ m, ([e], m, Returns tt).

Definition fail {A} (e : exn) : io A := λ m, ([], m, Raises e).

(** [try: body / except ...: handler]; the handler raises again what
    it does not catch. *)
Definition try_except {A} (body : io A) (handler : exn → io A) : io A := λ m,
  match body m with
  | (tr, m', Raises e) => let '(tr', m'', r) := handler e m' in (tr ++ tr', m'', r)
  | r => r
  end.

(** ** The operations of the machine *)

Definition print (line : string) : io unit := do (Stdout line).
Definition logger_debug (line : string) : io unit := do (LogDebug line).
Definition logger_warning (line : string) : io unit := do (LogWarning line).

(** [pathlib.Path.home()]. *)
Definition path_home : io (list string) := λ m,
  match home m with
  | Some e => ([], m, Raises e)
  | None => ([], m, Returns [])
  end.

(** [p.mkdir(parents=True, exist_ok=True)]. *)
Definition mkdir (p : list string) : io unit := λ m,
  ([Mkdir p], m,
   match mkdir_error m with
   | Some text => Raises (OSError text)
   | None => Returns tt
   end).

(** [p.exists()]. *)
Definition exists_ (p : list string) : io bool := λ m,
  ([], m,
   match exists_error m with
   | Some text => Raises (OSError text)
   | None => Returns (bool_decide (p ∈ files m))
   end).

(** [p.touch()]. *)
Definition touch (p : list string) : io unit := λ m,
  match touch_error m with
  | Some text => ([Touch p], m, Raises (OSError text))
  | None => ([Touch p], add_file p m, Returns tt)
  end.

(** [subprocess.run(argv, ...)]: the completed process as the triple
    of its [returncode], [stdout] and [stderr]. *)
Definition subprocess_run (argv : list string) : io (Z * string * string) := λ m,
  ([Subprocess argv], m,
   match run m argv with
   | RunRaises e => Raises e
   | CompletedProcess returncode stdout stderr =>
       Returns (returncode, stdout, stderr)
   end).

(** [with importlib.resources.as_file(...) as vsix_path], then
    [vsix_path.exists()]. *)
Definition bundled_vsix : io (string * bool) := λ m,
  ([], m,
   match vsix m with
   | BundleRaises e => Raises e
   | BundleAt vsix_path there => Returns (vsix_path, there)
   end).

(** [s.split(sep)] for a separator of one character. *)
Fixpoint split (sep : ascii) (s : string) : list string :=
  match s with
  | EmptyString => [EmptyString]
  | String c rest =>
      if bool_decide (c = sep) then EmptyString :: split sep rest
      else match split sep rest with
           | first :: others => String c first :: others
           | [] => [String c EmptyString]
           end
  end.

Definition DQ : string := String "034"%char EmptyString.

Section Install.

(** [str.lower] and [str.strip], which are Python's. *)
Variable lower : string → string.
Variable strip : string → string.

(** Lines 74-85. *)
Definition _mark_installation_successful (flag_file : list string)
    (editor_name : string) : io unit :=
  try_except
    (touch flag_file;;
     logger_debug (editor_name +:+ " extension installation marked as successful."))
    (λ e, if is_os_error e then
            logger_debug ("Could not create " +:+ editor_name
                          +:+ " extension success flag file: " +:+ str e)
          else fail e).

(** Lines 88-111. *)
Definition _is_extension_installed (editor_command extension_id : string)
    : io bool :=
  found ← try_except
    (process ← subprocess_run [editor_command; "--list-extensions"];
     let '(returncode, stdout, _) := process in
     if (returncode =? 0)%Z then
       let installed_extensions := split "010"%char (strip stdout) in
       mret (Some (bool_decide (extension_id ∈ installed_extensions)))
     else mret None)
    (λ e, logger_debug ("Could not check installed extensions: " +:+ str e);;
          mret None);
  match found with
  | Some answer => mret answer
  | None => mret false
  end.

(** Lines 114-160.  The function returns [True] or falls off its end
    ([None], which its caller takes as false): [false] stands for
    that. *)
Definition _attempt_bundled_install (editor_command editor_name : string)
    : io bool :=
  try_except
    ('(vsix_path, there) ← bundled_vsix;
     if there : bool then
       process ← subprocess_run
         [editor_command; "--install-extension"; vsix_path; "--force"];
       let '(returncode, _, stderr) := process in
       if (returncode =? 0)%Z then
         print ("INFO: Bundled " +:+ editor_name
                +:+ " extension installed successfully.");;
         mret true
       else
         logger_debug ("Bundled .vsix installation failed: " +:+ strip stderr);;
         mret false
     else
       logger_debug ("Bundled .vsix not found at " +:+ vsix_path +:+ ".");;
       mret false)
    (λ e, logger_warning
            ("Could not auto-install extension. Please make sure " +:+ DQ
             +:+ "code" +:+ DQ +:+ " command is in PATH. Error: " +:+ str e);;
          mret false).

(** Lines 14-23. *)
Definition is_vscode_like (env : gmap string string) : bool :=
  bool_decide (env !! "TERM_PROGRAM" = Some "vscode").

Definition is_windsurf (env : gmap string string) : bool :=
  bool_decide (env !! "__CFBundleIdentifier" = Some "com.exafunction.windsurf")
  || is_substring "windsurf" (lower (default EmptyString (env !! "PATH")))
  || existsb (λ val, is_substring "windsurf" (lower val))
             ((map_to_list env).*2).

(** Lines 9-71. *)
Definition attempt_vscode_extension_install : io unit := λ m,
  if negb (is_vscode_like (environ m) || is_windsurf (environ m)) then
    ([], m, Returns tt)
  else
    let '(editor_command, editor_name, flag_suffix) :=
      if is_windsurf (environ m) then ("surf", "Windsurf", "windsurf")
      else ("code", "VS Code", "vscode") in
    (home_dir ← path_home;
     let flag_dir := home_dir ++ [".openhands"] in
     let flag_file := flag_dir ++ ["." +:+ flag_suffix +:+ "_extension_installed"] in
     let extension_id := "openhands.openhands-vscode" in
     go_on ← try_except
       (mkdir flag_dir;;
        present ← exists_ flag_file;
        mret (negb present))
       (λ e, if is_os_error e then
               logger_debug ("Could not create or check " +:+ editor_name
                             +:+ " extension flag directory: " +:+ str e);;
               mret false
             else fail e);
     if go_on : bool then
       installed ← _is_extension_installed editor_command extension_id;
       if installed : bool then
         print ("INFO: OpenHands " +:+ editor_name
                +:+ " extension is already installed.");;
         _mark_installation_successful flag_file editor_name
       else
         print ("INFO: First-time setup: attempting to install the OpenHands "
                +:+ editor_name +:+ " extension...");;
         done ← _attempt_bundled_install editor_command editor_name;
         if done : bool then
           _mark_installation_successful flag_file editor_name
         else
           print ("INFO: Automatic installation failed. Please check the "
                  +:+ "OpenHands documentation for manual installation "
                  +:+ "instructions.");;
           print ("INFO: Will retry installation next time you run OpenHands in "
                  +:+ editor_name +:+ ".")
     else mret tt) m.

(** ** Reading a run *)

(** The editor the environment selects. *)
Definition editor_command (m : machine) : string :=
  if is_windsurf (environ m) then "surf" else "code".

Definition editor_name (m : machine) : string :=
  if is_windsurf (environ m) then "Windsurf" else "VS Code".

Definition flag_suffix (m : machine) : string :=
  if is_windsurf (environ m) then "windsurf" else "vscode".

Definition flag_file (m : machine) : list string :=
  [".openhands"; "." +:+ flag_suffix m +:+ "_extension_installed"].

Definition supported (m : machine) : bool :=
  is_vscode_like (environ m) || is_windsurf (environ m).

(** The editor lists the extension: the listing ran, returned 0, and
    one line of its stripped output is the identifier. *)
Definition listed (m : machine) : Prop :=
  ∃ stdout stderr,
    run m [editor_command m; "--list-extensions"]
    = CompletedProcess 0 stdout stderr
    ∧ "openhands.openhands-vscode" ∈ split "010"%char (strip stdout).

(** The bundled package is there and the editor installed it. *)
Definition installs (m : machine) : Prop :=
  ∃ vsix_path stdout stderr,
    vsix m = BundleAt vsix_path true
    ∧ run m [editor_command m; "--install-extension"; vsix_path; "--force"]
      = CompletedProcess 0 stdout stderr.

(** ** The three helpers, by cases *)

(** The trace of [_mark_installation_successful] on the flag file,
    and the machine it leaves. *)
Definition marked (m : machine) : list effect :=
  [Touch (flag_file m);
   LogDebug match touch_error m with
            | None =>
                editor_name m +:+ " extension installation marked as successful."
            | Some text =>
                "Could not create " +:+ editor_name m
                +:+ " extension success flag file: " +:+ text
            end].

Definition mark (m : machine) : machine :=
  match touch_error m with
  | None => add_file (flag_file m) m
  | Some _ => m
  end.

Lemma mark_installation_successful_run m :
  _mark_installation_successful (flag_file m) (editor_name m) m
  = (marked m, mark m, Returns tt).
Proof.
  unfold _mark_installation_successful, try_except, touch, logger_debug, do,
    mbind, io_bind, marked, mark.
  by destruct (touch_error m).
Qed.

(** The trace of the listing, and its answer. *)
Definition asked (m : machine) : list effect :=
  Subprocess [editor_command m; "--list-extensions"]
  :: match run m [editor_command m; "--list-extensions"] with
     | RunRaises e =>
         [LogDebug ("Could not check installed extensions: " +:+ str e)]
     | CompletedProcess _ _ _ => []
     end.

Definition is_listed (m : machine) : bool :=
  match run m [editor_command m; "--list-extensions"] with
  | RunRaises _ => false
  | CompletedProcess returncode stdout _ =>
      (returncode =? 0)%Z
      && bool_decide ("openhands.openhands-vscode"
                      ∈ split "010"%char (strip stdout))
  end.

Lemma is_extension_installed_run m :
  _is_extension_installed (editor_command m) "openhands.openhands-vscode" m
  = (asked m, m, Returns (is_listed m)).
Proof.
  unfold _is_extension_installed, try_except, subprocess_run, logger_debug, do,
    mbind, mret, io_bind, io_ret, asked, is_listed.
  destruct (run m _) as [e|returncode stdout stderr]; [done|].
  by destruct (returncode =? 0)%Z.
Qed.

(** The trace of the installation of the bundled package, and its
    answer. *)
Definition could_not_install (e : exn) : effect :=
  LogWarning ("Could not auto-install extension. Please make sure " +:+ DQ
              +:+ "code" +:+ DQ +:+ " command is in PATH. Error: " +:+ str e).

Definition tried (m : machine) : list effect :=
  match vsix m with
  | BundleRaises e => [could_not_install e]
  | BundleAt vsix_path false =>
      [LogDebug ("Bundled .vsix not found at " +:+ vsix_path +:+ ".")]
  | BundleAt vsix_path true =>
      Subprocess [editor_command m; "--install-extension"; vsix_path; "--force"]
      :: match run m [editor_command m; "--install-extension"; vsix_path;
                      "--force"] with
         | RunRaises e => [could_not_install e]
         | CompletedProcess returncode _ stderr =>
             if (returncode =? 0)%Z then
               [Stdout ("INFO: Bundled " +:+ editor_name m
                        +:+ " extension installed successfully.")]
             else
               [LogDebug ("Bundled .vsix installation failed: "
                          +:+ strip stderr)]
         end
  end.

Definition is_installed (m : machine) : bool :=
  match vsix m with
  | BundleAt vsix_path true =>
      match run m [editor_command m; "--install-extension"; vsix_path;
                   "--force"] with
      | CompletedProcess returncode _ _ => (returncode =? 0)%Z
      | RunRaises _ => false
      end
  | _ => false
  end.

Lemma attempt_bundled_install_run m :
  _attempt_bundled_install (editor_command m) (editor_name m) m
  = (tried m, m, Returns (is_installed m)).
Proof.
  unfold _attempt_bundled_install, try_except, bundled_vsix, subprocess_run,
    print, logger_debug, logger_warning, do, mbind, mret, io_bind, io_ret,
    tried, is_installed, could_not_install.
  destruct (vsix m) as [e|vsix_path []]; [done| |done].
  destruct (run m _) as [e|returncode stdout stderr]; [done|].
  by destruct (returncode =? 0)%Z.
Qed.

(** ** The installer, by cases *)

(** What the installer does once the flag file is known to be
    missing: it asks the editor, installs if it has to, and marks. *)
Definition first_time (m : machine) : list effect * machine * ended unit :=
  if is_listed m then
    (asked m
     ++ Stdout ("INFO: OpenHands " +:+ editor_name m
                +:+ " extension is already installed.") :: marked m,
     mark m, Returns tt)
  else if is_installed m then
    (asked m
     ++ Stdout ("INFO: First-time setup: attempting to install the OpenHands "
                +:+ editor_name m +:+ " extension...")
        :: tried m ++ marked m,
     mark m, Returns tt)
  else
    (asked m
     ++ Stdout ("INFO: First-time setup: attempting to install the OpenHands "
                +:+ editor_name m +:+ " extension...")
        :: tried m
     ++ [Stdout ("INFO: Automatic installation failed. Please check the "
                 +:+ "OpenHands documentation for manual installation "
                 +:+ "instructions.");
         Stdout ("INFO: Will retry installation next time you run OpenHands in "
                 +:+ editor_name m +:+ ".")],
     m, Returns tt).

Lemma attempt_run m :
  attempt_vscode_extension_install m
  = if negb (supported m) then ([], m, Returns tt)
    else match home m with
         | Some e => ([], m, Raises e)
         | None =>
             match mkdir_error m, exists_error m with
             | Some text, _ | None, Some text =>
                 ([Mkdir [".openhands"];
                   LogDebug ("Could not create or check " +:+ editor_name m
                             +:+ " extension flag directory: " +:+ text)],
                  m, Returns tt)
             | None, None =>
                 if bool_decide (flag_file m ∈ files m) then
                   ([Mkdir [".openhands"]], m, Returns tt)
                 else
                   let '(tr, m', r) := first_time m in
                   (Mkdir [".openhands"] :: tr, m', r)
             end
         end.
Proof.
  pose proof (is_extension_installed_run m) as Hasked.
  pose proof (attempt_bundled_install_run m) as Htried.
  pose proof (mark_installation_successful_run m) as Hmarked.
  unfold attempt_vscode_extension_install, supported, first_time.
  unfold editor_command, editor_name, flag_file, flag_suffix in *.
  destruct (is_vscode_like (environ m) || is_windsurf (environ m)); [|done].
  cbn [negb].
  destruct (is_windsurf (environ m));
    unfold try_except, path_home, mkdir, exists_, print, logger_debug, do,
      fail, mbind, mret, io_bind, io_ret;
    (destruct (home m) as [e|]; [done|]);
    (destruct (mkdir_error m) as [text|]; [done|]);
    (destruct (exists_error m) as [text|]; [done|]);
    cbn [app negb is_os_error];
    (case_bool_decide; [done|]);
    cbn [negb]; rewrite Hasked;
    (destruct (is_listed m); [by rewrite Hmarked|]);
    rewrite Htried;
    (destruct (is_installed m); [by rewrite Hmarked|]);
    by rewrite ?app_nil_r.
Qed.

(** ** What a run did *)

Definition subprocesses (tr : list effect) : list (list string) :=
  omap (λ a, match a with Subprocess argv => Some argv | _ => None end) tr.

Definition touches (tr : list effect) : list (list string) :=
  omap (λ a, match a with Touch p => Some p | _ => None end) tr.

Definition printed (tr : list effect) : list string :=
  omap (λ a, match a with Stdout line => Some line | _ => None end) tr.

Lemma is_listed_spec m : is_listed m = true ↔ listed m.
Proof.
  unfold is_listed, listed.
  destruct (run m _) as [e|returncode stdout stderr].
  { split; [done|]. by intros (? & ? & ? & _). }
  rewrite andb_true_iff, Z.eqb_eq, bool_decide_eq_true. split.
  - intros [-> Hid]. by exists stdout, stderr.
  - intros (stdout' & stderr' & [= -> -> ->] & Hid). done.
Qed.

Lemma is_installed_spec m : is_installed m = true ↔ installs m.
Proof.
  unfold is_installed, installs.
  destruct (vsix m) as [e|vsix_path []].
  - split; [done|]. by intros (? & ? & ? & ? & _).
  - destruct (run m _) as [e|returncode stdout stderr] eqn:Hrun.
    + split; [done|]. intros (? & ? & ? & [= <-] & Hrun'). congruence.
    + rewrite Z.eqb_eq. split.
      * intros ->. by exists vsix_path, stdout, stderr.
      * intros (? & ? & ? & [= <-] & Hrun'). congruence.
  - split; [done|]. by intros (? & ? & ? & ? & _).
Qed.

Lemma asked_did m :
  subprocesses (asked m) = [[editor_command m; "--list-extensions"]]
  ∧ touches (asked m) = [] ∧ printed (asked m) = [].
Proof. unfold asked. by destruct (run m _). Qed.

Lemma marked_did m :
  subprocesses (marked m) = [] ∧ touches (marked m) = [flag_file m]
  ∧ printed (marked m) = [].
Proof. done. Qed.

Lemma tried_did m :
  subprocesses (tried m)
  = match vsix m with
    | BundleAt vsix_path true =>
        [[editor_command m; "--install-extension"; vsix_path; "--force"]]
    | _ => []
    end
  ∧ touches (tried m) = []
  ∧ printed (tried m)
    = if is_installed m then
        ["INFO: Bundled " +:+ editor_name m
         +:+ " extension installed successfully."]
      else [].
Proof.
  unfold tried, is_installed. destruct (vsix m) as [e|vsix_path []]; try done.
  destruct (run m _) as [e|returncode stdout stderr]; [done|].
  by destruct (returncode =? 0)%Z.
Qed.

(** The first-time run, read three ways. *)
Lemma first_time_did m :
  let '(tr, m', r) := first_time m in
  r = Returns tt
  ∧ subprocesses tr
    = [editor_command m; "--list-extensions"]
      :: (if is_listed m then [] else subprocesses (tried m))
  ∧ touches tr = (if is_listed m || is_installed m then [flag_file m] else [])
  ∧ m' = (if is_listed m || is_installed m then mark m else m)
  ∧ printed tr
    = if is_listed m then
        ["INFO: OpenHands " +:+ editor_name m
         +:+ " extension is already installed."]
      else
        ("INFO: First-time setup: attempting to install the OpenHands "
         +:+ editor_name m +:+ " extension...")
        :: if is_installed m then
             ["INFO: Bundled " +:+ editor_name m
              +:+ " extension installed successfully."]
           else
             ["INFO: Automatic installation failed. Please check the "
              +:+ "OpenHands documentation for manual installation "
              +:+ "instructions.";
              "INFO: Will retry installation next time you run OpenHands in "
              +:+ editor_name m +:+ "."].
Proof.
  unfold first_time.
  destruct (asked_did m) as (Ha1 & Ha2 & Ha3).
  destruct (tried_did m) as (Ht1 & Ht2 & Ht3).
  destruct (is_listed m); [|destruct (is_installed m)]; cbn [orb];
    unfold subprocesses, touches, printed in *;
    rewrite !omap_app; cbn [omap list_omap]; rewrite ?omap_app;
    cbn [omap list_omap];
    rewrite ?Ha1, ?Ha2, ?Ha3, ?Ht1, ?Ht2, ?Ht3; by rewrite ?app_nil_r.
Qed.

(** A first-time run: a supported editor, a home directory, a flag
    directory that can be made and read, and no flag file yet. *)
Definition fresh (m : machine) : Prop :=
  supported m = true ∧ home m = None ∧ mkdir_error m = None
  ∧ exists_error m = None ∧ flag_file m ∉ files m.

Lemma attempt_fresh m :
  fresh m →
  attempt_vscode_extension_install m
  = let '(tr, m', r) := first_time m in (Mkdir [".openhands"] :: tr, m', r).
Proof.
  intros (Hs & Hh & Hm & He & Hf). rewrite attempt_run, Hs, Hh, Hm, He.
  by rewrite bool_decide_eq_false_2.
Qed.

Lemma attempt_not_fresh m :
  ¬ fresh m →
  subprocesses (attempt_vscode_extension_install m).1.1 = []
  ∧ touches (attempt_vscode_extension_install m).1.1 = []
  ∧ printed (attempt_vscode_extension_install m).1.1 = []
  ∧ (attempt_vscode_extension_install m).1.2 = m.
Proof.
  intros Hnot. rewrite attempt_run. unfold fresh in Hnot.
  destruct (supported m); [|done]. cbn [negb].
  destruct (home m); [done|].
  destruct (mkdir_error m); [done|].
  destruct (exists_error m); [done|].
  case_bool_decide; [done|]. by destruct Hnot.
Qed.

(** X16. The installer raises only when the home directory cannot be
    determined inside a supported editor, and then it has done
    nothing.  Every failure of the file system, of the editor's
    command line or of the package lookup is caught. *)
Theorem raises_only_for_home m e :
  (attempt_vscode_extension_install m).2 = Raises e →
  home m = Some e
  ∧ supported m = true
  ∧ attempt_vscode_extension_install m = ([], m, Raises e).
Proof.
  rewrite attempt_run. destruct (supported m); [|done]. cbn [negb].
  destruct (home m) as [e'|]; [by intros [= ->]|].
  destruct (mkdir_error m); [done|].
  destruct (exists_error m); [done|].
  case_bool_decide; [done|].
  pose proof (first_time_did m) as Hdid.
  destruct (first_time m) as [[tr m'] r]. destruct Hdid as (-> & _). done.
Qed.

(** X17. The success flag is written only after the editor has
    confirmed the extension: a run touches at most one file, the flag
    file of the editor in use, and only when the listing showed the
    extension or the installation of the bundled package returned 0. *)
Theorem flag_only_after_success m p :
  p ∈ touches (attempt_vscode_extension_install m).1.1 →
  p = flag_file m
  ∧ touches (attempt_vscode_extension_install m).1.1 = [p]
  ∧ (listed m ∨ installs m).
Proof.
  intros Hin.
  assert (fresh m) as Hfresh.
  { destruct (supported m) eqn:Hs, (home m) eqn:Hh, (mkdir_error m) eqn:Hm,
      (exists_error m) eqn:He;
      try (destruct (attempt_not_fresh m) as (_ & Ht & _);
           [unfold fresh; intros (? & ? & ? & ? & ?); congruence|];
           rewrite Ht in Hin; by apply elem_of_nil in Hin).
    destruct (decide (flag_file m ∈ files m)) as [Hf|Hf]; [|done].
    destruct (attempt_not_fresh m) as (_ & Ht & _);
      [unfold fresh; intros (? & ? & ? & ? & ?); done|].
    rewrite Ht in Hin. by apply elem_of_nil in Hin. }
  rewrite attempt_fresh in Hin |- * by done.
  pose proof (first_time_did m) as Hdid.
  destruct (first_time m) as [[tr m'] r].
  destruct Hdid as (_ & _ & Ht & _). simpl in Hin |- *.
  change (p ∈ touches tr) in Hin. change (touches (Mkdir [".openhands"] :: tr))
    with (touches tr). rewrite Ht in Hin |- *.
  destruct (is_listed m) eqn:Hl; [|destruct (is_installed m) eqn:Hi];
    cbn [orb] in *.
  - apply list_elem_of_singleton in Hin as ->.
    split_and!; try done. left. by apply is_listed_spec.
  - apply list_elem_of_singleton in Hin as ->.
    split_and!; try done. right. by apply is_installed_spec.
  - by apply elem_of_nil in Hin.
Qed.

Lemma fresh_dec m : fresh m ∨ ¬ fresh m.
Proof.
  unfold fresh.
  destruct (supported m); [|right; by intros (? & _)].
  destruct (home m); [right; by intros (_ & ? & _)|].
  destruct (mkdir_error m); [right; by intros (_ & _ & ? & _)|].
  destruct (exists_error m); [right; by intros (_ & _ & _ & ? & _)|].
  destruct (decide (flag_file m ∈ files m)); [right; by intros (_ & _ & _ & _ & ?)|].
  by left.
Qed.

(** X18. At most two processes are started, in a fixed order: the
    listing first, and the installation only when the listing did not
    show the extension and the bundled package exists.  No process is
    started unless the run is a first-time run. *)
Theorem at_most_two_subprocesses m :
  let ran := subprocesses (attempt_vscode_extension_install m).1.1 in
  (ran = [] ∧ ¬ fresh m)
  ∨ (ran = [[editor_command m; "--list-extensions"]] ∧ fresh m
     ∧ (listed m ∨ ∀ vsix_path, vsix m ≠ BundleAt vsix_path true))
  ∨ (∃ vsix_path,
       ran = [[editor_command m; "--list-extensions"];
              [editor_command m; "--install-extension"; vsix_path; "--force"]]
       ∧ fresh m ∧ ¬ listed m ∧ vsix m = BundleAt vsix_path true).
Proof.
  intros ran. subst ran. destruct (fresh_dec m) as [Hfresh|Hnot].
  - right. rewrite attempt_fresh by done.
    pose proof (first_time_did m) as Hdid.
    destruct (first_time m) as [[tr m'] r].
    destruct Hdid as (_ & Hs & _).
    change (subprocesses (Mkdir [".openhands"] :: tr, m', r).1.1)
      with (subprocesses tr). rewrite Hs.
    destruct (is_listed m) eqn:Hl.
    { left. split_and!; try done. left. by apply is_listed_spec. }
    assert (¬ listed m) as Hnl.
    { intros Hlisted. apply is_listed_spec in Hlisted. congruence. }
    destruct (tried_did m) as (-> & _).
    destruct (vsix m) as [e|vsix_path []] eqn:Hv.
    + left. split_and!; try done. by right.
    + right. by exists vsix_path.
    + left. split_and!; try done. by right.
  - left. by destruct (attempt_not_fresh m Hnot) as (-> & _).
Qed.

(** X19. The attempt is made once: after a first-time run in which
    the editor confirmed the extension and the flag file could be
    written, the next run on the machine left behind only makes the
    flag directory and returns.  It starts no process, prints nothing
    and leaves the machine as it is. *)
Theorem second_run_does_nothing m :
  fresh m →
  listed m ∨ installs m →
  touch_error m = None →
  attempt_vscode_extension_install (attempt_vscode_extension_install m).1.2
  = ([Mkdir [".openhands"]], (attempt_vscode_extension_install m).1.2,
     Returns tt).
Proof.
  intros Hfresh Hok Htouch.
  assert (is_listed m || is_installed m = true) as Hb.
  { apply orb_true_iff.
    destruct Hok; [left; by apply is_listed_spec|right; by apply is_installed_spec]. }
  rewrite (attempt_fresh m Hfresh).
  pose proof (first_time_did m) as Hdid.
  destruct (first_time m) as [[tr m'] r].
  destruct Hdid as (_ & _ & _ & -> & _). rewrite Hb.
  change ((Mkdir [".openhands"] :: tr, mark m, r).1.2) with (mark m).
  destruct Hfresh as (Hs & Hh & Hm & He & _).
  rewrite attempt_run. unfold mark. rewrite Htouch.
  change (supported (add_file (flag_file m) m)) with (supported m).
  change (home (add_file (flag_file m) m)) with (home m).
  change (mkdir_error (add_file (flag_file m) m)) with (mkdir_error m).
  change (exists_error (add_file (flag_file m) m)) with (exists_error m).
  change (flag_file (add_file (flag_file m) m)) with (flag_file m).
  rewrite Hs, Hh, Hm, He. cbn [negb].
  rewrite bool_decide_eq_true_2; [done|].
  apply elem_of_union_l, elem_of_singleton. done.
Qed.

(** X20. A failed attempt is retried: on a first-time run in which
    the editor neither lists the extension nor installs the bundled
    package, the flag file is not written and the machine is left as
    it was, so the next run does the same again; exactly three lines
    are printed, the last two telling the user so. *)
Theorem failed_install_retried m :
  fresh m →
  ¬ listed m →
  ¬ installs m →
  touches (attempt_vscode_extension_install m).1.1 = []
  ∧ (attempt_vscode_extension_install m).1.2 = m
  ∧ (attempt_vscode_extension_install m).2 = Returns tt
  ∧ printed (attempt_vscode_extension_install m).1.1
    = ["INFO: First-time setup: attempting to install the OpenHands "
       +:+ editor_name m +:+ " extension...";
       "INFO: Automatic installation failed. Please check the "
       +:+ "OpenHands documentation for manual installation "
       +:+ "instructions.";
       "INFO: Will retry installation next time you run OpenHands in "
       +:+ editor_name m +:+ "."].
Proof.
  intros Hfresh Hnl Hni.
  assert (is_listed m = false) as Hl.
  { destruct (is_listed m) eqn:Hl; [|done]. by apply is_listed_spec in Hl. }
  assert (is_installed m = false) as Hi.
  { destruct (is_installed m) eqn:Hi; [|done]. by apply is_installed_spec in Hi. }
  rewrite (attempt_fresh m Hfresh).
  pose proof (first_time_did m) as Hdid.
  destruct (first_time m) as [[tr m'] r].
  destruct Hdid as (-> & _ & Ht & -> & Hp). rewrite Hl, Hi in *.
  cbn [fst snd orb] in *.
  change (touches (Mkdir [".openhands"] :: tr)) with (touches tr).
  change (printed (Mkdir [".openhands"] :: tr)) with (printed tr).
  by rewrite Ht, Hp.
Qed.


(** X22. Nothing happens outside a first-time run, and a first-time
    run is always visible: the run starts a process, prints, touches a
    file or changes the machine only if the editor is supported, the
    home directory is known, the flag directory can be made and read
    and the flag file is missing; and then it always starts with the
    listing and prints at least one line. *)
Theorem acts_only_first_time m :
  (fresh m →
   (∃ rest, subprocesses (attempt_vscode_extension_install m).1.1
            = [editor_command m; "--list-extensions"] :: rest)
   ∧ printed (attempt_vscode_extension_install m).1.1 ≠ [])
  ∧ (subprocesses (attempt_vscode_extension_install m).1.1 ≠ []
     ∨ printed (attempt_vscode_extension_install m).1.1 ≠ []
     ∨ touches (attempt_vscode_extension_install m).1.1 ≠ []
     ∨ (attempt_vscode_extension_install m).1.2 ≠ m →
     fresh m).
Proof.
  split.
  - intros Hfresh. rewrite (attempt_fresh m Hfresh).
    pose proof (first_time_did m) as Hdid.
    destruct (first_time m) as [[tr m'] r].
    destruct Hdid as (_ & Hs & _ & _ & Hp).
    change (subprocesses (Mkdir [".openhands"] :: tr, m', r).1.1)
      with (subprocesses tr).
    change (printed (Mkdir [".openhands"] :: tr, m', r).1.1)
      with (printed tr).
    rewrite Hs, Hp. split; [by eexists|]. by destruct (is_listed m).
  - intros Hacts. destruct (fresh_dec m) as [|Hnot]; [done|].
    destruct (attempt_not_fresh m Hnot) as (Hs & Ht & Hp & Hm).
    by destruct Hacts as [?|[?|[?|?]]].
Qed.

(** ** The editor the environment selects *)

Lemma existsb_values (env : gmap string string) (f : string → bool) key val :
  env !! key = Some val → f val = true → existsb f ((map_to_list env).*2) = true.
Proof.
  intros Hkey Hval. apply existsb_exists. exists val. split; [|done].
  apply list_elem_of_In, list_elem_of_fmap. exists (key, val). split; [done|].
  by apply elem_of_map_to_list.
Qed.

(** X23. The test of [PATH] adds nothing to the test of all values of
    the environment: windsurf is selected exactly when the bundle
    identifier is Windsurf's or some value of the environment, in
    lower case, contains windsurf. *)
Theorem path_test_redundant env :
  is_substring "windsurf" (lower EmptyString) = false →
  is_windsurf env
  = (bool_decide (env !! "__CFBundleIdentifier" = Some "com.exafunction.windsurf")
     || existsb (λ val, is_substring "windsurf" (lower val))
                ((map_to_list env).*2)).
Proof.
  intros Hempty. unfold is_windsurf.
  destruct (bool_decide _); [done|]. cbn [orb].
  destruct (env !! "PATH") as [path|] eqn:Hpath; cbn [default from_option id].
  - destruct (is_substring "windsurf" (lower path)) eqn:Hin; [|done].
    cbn [orb]. symmetry.
    by apply (existsb_values env (λ val, is_substring "windsurf" (lower val))
                "PATH" path).
  - by rewrite Hempty.
Qed.

End Install.

(** ** Sample machines *)

(** [str.lower] and [str.strip] on ASCII text. *)
Definition ascii_lower (s : string) : string :=
  string_of_list_ascii
    (map (λ c, let n := nat_of_ascii c in
               if (65 <=? n)%nat && (n <=? 90)%nat then ascii_of_nat (n + 32)
               else c)
         (list_ascii_of_string s)).

Definition is_space (c : ascii) : bool :=
  let n := nat_of_ascii c in
  (9 <=? n)%nat && (n <=? 13)%nat || (28 <=? n)%nat && (n <=? 32)%nat.

Fixpoint lstrip (s : string) : string :=
  match s with
  | EmptyString => EmptyString
  | String c rest => if is_space c then lstrip rest else s
  end.

Fixpoint rstrip (s : string) : string :=
  match s with
  | EmptyString => EmptyString
  | String c rest =>
      match rstrip rest with
      | EmptyString => if is_space c then EmptyString else String c EmptyString
      | kept => String c kept
      end
  end.

Definition ascii_strip (s : string) : string := rstrip (lstrip s).

(** An editor that answers the listing with [listing] and every other
    command line with [other]. *)
Definition editor (listing other : process) (argv : list string) : process :=
  if bool_decide (argv = ["code"; "--list-extensions"]) then listing else other.

Definition in_vscode : gmap string string := {[ "TERM_PROGRAM" := "vscode" ]}.

Definition package : bundle := BundleAt "/pkg/openhands-vscode-0.0.1.vsix" true.

(** A terminal of VS Code in which the extension is installed already. *)
Definition extension_there : machine :=
  {| environ := in_vscode; home := None; mkdir_error := None;
     exists_error := None; touch_error := None; files := ∅;
     run := editor (CompletedProcess 0
                      ("ms-python.python" +:+ LF
                       +:+ "openhands.openhands-vscode" +:+ LF)
                      EmptyString)
                   (CompletedProcess 1 EmptyString "unknown option");
     vsix := package |}.


(** No home directory. *)
Definition homeless : machine :=
  {| environ := in_vscode;
     home := Some (RuntimeError "Could not determine home directory.");
     mkdir_error := None; exists_error := None; touch_error := None;
     files := ∅; run := run extension_there; vsix := package |}.

(** An editor without the extension that fails to install it. *)
Definition install_fails : machine :=
  {| environ := in_vscode; home := None; mkdir_error := None;
     exists_error := None; touch_error := None; files := ∅;
     run := editor (CompletedProcess 0 ("ms-python.python" +:+ LF) EmptyString)
                   (CompletedProcess 1 EmptyString "Failed to install");
     vsix := package |}.

Lemma extension_there_fresh : fresh ascii_lower extension_there.
Proof.
  unfold fresh. split_and!; try (vm_compute; reflexivity).
  apply not_elem_of_empty.
Defined.

Lemma extension_there_listed : listed ascii_lower ascii_strip extension_there.
Proof.
  apply is_listed_spec. vm_compute. reflexivity.
Defined.



Lemma install_fails_fresh : fresh ascii_lower install_fails.
Proof.
  unfold fresh. split_and!; try (vm_compute; reflexivity).
  apply not_elem_of_empty.
Defined.

Lemma install_fails_not_listed :
  ¬ listed ascii_lower ascii_strip install_fails.
Proof.
  intros Hlisted%is_listed_spec. vm_compute in Hlisted. discriminate.
Defined.

Lemma install_fails_not_installs : ¬ installs ascii_lower install_fails.
Proof.
  intros Hinstalls%is_installed_spec. vm_compute in Hinstalls. discriminate.
Defined.

Lemma raises_only_for_home_witness :
  home homeless = Some (RuntimeError "Could not determine home directory.")
  ∧ supported ascii_lower homeless = true
  ∧ attempt_vscode_extension_install ascii_lower ascii_strip homeless
    = ([], homeless, Raises (RuntimeError "Could not determine home directory.")).
Proof.
  apply (raises_only_for_home ascii_lower ascii_strip homeless
           (RuntimeError "Could not determine home directory.")).
  vm_compute. reflexivity.
Defined.

Lemma flag_only_after_success_witness :
  [".openhands"; ".vscode_extension_installed"]
  = flag_file ascii_lower extension_there
  ∧ touches
      (attempt_vscode_extension_install ascii_lower ascii_strip
         extension_there).1.1
    = [[".openhands"; ".vscode_extension_installed"]]
  ∧ (listed ascii_lower ascii_strip extension_there
     ∨ installs ascii_lower extension_there).
Proof.
  apply (flag_only_after_success ascii_lower ascii_strip extension_there
           [".openhands"; ".vscode_extension_installed"]).
  vm_compute. apply list_elem_of_here.
Defined.

Lemma second_run_does_nothing_witness :
  attempt_vscode_extension_install ascii_lower ascii_strip
    (attempt_vscode_extension_install ascii_lower ascii_strip
       extension_there).1.2
  = ([Mkdir [".openhands"]],
     (attempt_vscode_extension_install ascii_lower ascii_strip
        extension_there).1.2,
     Returns tt).
Proof.
  apply (second_run_does_nothing ascii_lower ascii_strip extension_there).
  - exact extension_there_fresh.
  - left. exact extension_there_listed.
  - reflexivity.
Defined.

Lemma failed_install_retried_witness :
  touches
    (attempt_vscode_extension_install ascii_lower ascii_strip
       install_fails).1.1 = []
  ∧ (attempt_vscode_extension_install ascii_lower ascii_strip
       install_fails).1.2 = install_fails
  ∧ (attempt_vscode_extension_install ascii_lower ascii_strip
       install_fails).2 = Returns tt
  ∧ printed
      (attempt_vscode_extension_install ascii_lower ascii_strip
         install_fails).1.1
    = ["INFO: First-time setup: attempting to install the OpenHands "
       +:+ editor_name ascii_lower install_fails +:+ " extension...";
       "INFO: Automatic installation failed. Please check the "
       +:+ "OpenHands documentation for manual installation "
       +:+ "instructions.";
       "INFO: Will retry installation next time you run OpenHands in "
       +:+ editor_name ascii_lower install_fails +:+ "."].
Proof.
  apply (failed_install_retried ascii_lower ascii_strip install_fails).
  - exact install_fails_fresh.
  - exact install_fails_not_listed.
  - exact install_fails_not_installs.
Defined.


(** A terminal of VS Code whose [PATH] has a directory of Windsurf. *)
Definition windsurf_on_path : gmap string string :=
  {[ "TERM_PROGRAM" := "vscode"; "PATH" := "/usr/bin:/opt/Windsurf/bin" ]}.

Lemma path_test_redundant_witness :
  is_windsurf ascii_lower windsurf_on_path
  = (bool_decide (windsurf_on_path !! "__CFBundleIdentifier"
                  = Some "com.exafunction.windsurf")
     || existsb (λ val, is_substring "windsurf" (ascii_lower val))
                ((map_to_list windsurf_on_path).*2)).
Proof.
  apply (path_test_redundant ascii_lower windsurf_on_path).
  vm_compute. reflexivity.
Defined.

(** The run on [extension_there], and the editor chosen for
    [windsurf_on_path]. *)
Example extension_there_run :
  (attempt_vscode_extension_install ascii_lower ascii_strip
     extension_there).1.1
  = [Mkdir [".openhands"];
     Subprocess ["code"; "--list-extensions"];
     Stdout "INFO: OpenHands VS Code extension is already installed.";
     Touch [".openhands"; ".vscode_extension_installed"];
     LogDebug "VS Code extension installation marked as successful."].
Proof. vm_compute. reflexivity. Qed.

Example windsurf_on_path_editor :
  is_windsurf ascii_lower windsurf_on_path = true.
Proof. vm_compute. reflexivity. Qed.

End Installer.
